(** * FlagModel: a verification model of
      [flag_embedding/baai_general_embedding/flag_models.py]

    The Python class [FlagModel] wraps a tokenizer and a transformer encoder.
    Its own logic is text preparation ([encode_queries], [encode_corpus]),
    batching ([encode]) and pooling ([pooling]).  The tokenizer, the encoder,
    the device layer and [torch.nn.functional.normalize] are collaborators:
    they are kept abstract in a [Backend] record, and every statement below
    holds for every backend.

    Python values are modelled as follows.
    - [str] is a list of Unicode code points ([list N]);
    - [int] is [Z] (Python integers are unbounded), an [int64] tensor entry
      is a [Z] reduced by [wrap64] where the code adds them up;
    - a [float32] tensor entry is a [spec_float] with the binary32 parameters
      (precision 24, maximal exponent 128), with the IEEE operations of
      [SpecFloat];
    - a tensor is a rectangular nested list, outermost dimension first;
    - a [dict] from [str] to [str] is a [gmap];
    - a raised exception is the [Err] case of [result]. *)

From Stdlib Require Import ZArith List String Ascii Bool Lia.
From Stdlib Require Import Floats.SpecFloat.
From stdpp Require Import base option list gmap.

Local Open Scope Z_scope.

(** ** Exceptions and the error monad *)

Inductive exn : Type :=
  | IndexError
  | KeyError (key : list N)
  | AttributeError (attr : string)
  | ValueError
  | RuntimeError
  | OSError.

Inductive result (A : Type) : Type :=
  | OK (a : A)
  | Err (e : exn).
Arguments OK {A} a.
Arguments Err {A} e.

#[global] Instance result_ret : MRet result := fun A a => OK a.
#[global] Instance result_bind : MBind result := fun A B f m =>
  match m with
  | OK a => f a
  | Err e => Err e
  end.

Definition is_OK {A} (r : result A) : bool :=
  match r with OK _ => true | Err _ => false end.

(** ** Python built-ins used by the class *)

Module Py.

Definition str := list N.

(** An ASCII literal as a Python string. *)
Definition lit (s : string) : str :=
  map N_of_ascii (list_ascii_of_string s).

(** [str.isspace] on one code point (CPython's [_PyUnicode_IsWhitespace]). *)
Definition isspace (c : N) : bool :=
  ((0x09 <=? c) && (c <=? 0x0D) || (0x1C <=? c) && (c <=? 0x20)
   || (c =? 0x85) || (c =? 0xA0) || (c =? 0x1680)
   || (0x2000 <=? c) && (c <=? 0x200A)
   || (c =? 0x2028) || (c =? 0x2029) || (c =? 0x202F) || (c =? 0x205F)
   || (c =? 0x3000))%N.

Fixpoint lstrip (s : str) : str :=
  match s with
  | c :: s' => if isspace c then lstrip s' else s
  | [] => []
  end.

Definition rstrip (s : str) : str := rev (lstrip (rev s)).

(** [s.strip()] *)
Definition strip (s : str) : str := rstrip (lstrip s).

(** ['{}{}'.format(a, b)] and ['{} {}'.format(a, b)] on two strings. *)
Definition format2 (a b : str) : str := a ++ b.
Definition format2_sp (a b : str) : str := a ++ lit " " ++ b.

(** [len(range(start, stop, step))] for a non-zero step. *)
Definition range_length (start stop step : Z) : Z :=
  if 0 <? step then
    if start <? stop then (stop - start - 1) / step + 1 else 0
  else
    if stop <? start then (start - stop - 1) / (- step) + 1 else 0.

(** [range(start, stop, step)]; a zero step raises [ValueError]. *)
Definition range (start stop step : Z) : result (list Z) :=
  if step =? 0 then Err ValueError
  else OK (map (fun i : nat => start + Z.of_nat i * step)
               (seq 0 (Z.to_nat (range_length start stop step)))).

(** Index normalisation of a slice bound (step 1). *)
Definition slice_bound (len i : Z) : Z :=
  if i <? 0 then Z.max (i + len) 0 else Z.min i len.

(** [l[lo:hi]] *)
Definition slice {A} (l : list A) (lo hi : Z) : list A :=
  let n := Z.of_nat (length l) in
  let a := slice_bound n lo in
  let b := slice_bound n hi in
  take (Z.to_nat (b - a)) (drop (Z.to_nat a) l).

(** [l[0]] *)
Definition first {A} (l : list A) : result A :=
  match l with
  | x :: _ => OK x
  | [] => Err IndexError
  end.

End Py.

(** ** float32 arithmetic (IEEE 754 binary32, round to nearest even) *)

Module F32.

Definition prec : Z := 24.
Definition emax : Z := 128.

Definition t := spec_float.

Definition zero : t := S754_zero false.
Definition nan : t := S754_nan.

(** Conversion of an integer, as [tensor.float()] does on an int64 entry. *)
Definition of_int (z : Z) : t := binary_normalize prec emax z 0 false.

Definition one : t := Eval vm_compute in of_int 1.

Definition add : t -> t -> t := SFadd prec emax.
Definition mul : t -> t -> t := SFmul prec emax.
Definition div : t -> t -> t := SFdiv prec emax.
Definition eqb : t -> t -> bool := SFeqb.

(** A well-formed binary32 datum, and a finite one. *)
Definition valid (x : t) : bool := valid_binary prec emax x.
Definition is_finite (x : t) : bool :=
  match x with
  | S754_zero _ | S754_finite _ _ _ => true
  | S754_infinity _ | S754_nan => false
  end.
Definition finite (x : t) : bool := valid x && is_finite x.

(** The value read back as a number: [-0.0] and [+0.0] are the same number. *)
Definition unsigned_zero (x : t) : t :=
  match x with
  | S754_zero _ => zero
  | _ => x
  end.

(** A zero or a NaN: what a product with the mask flag 0 can be. *)
Definition zero_or_nan (x : t) : Prop :=
  match x with
  | S754_zero _ | S754_nan => True
  | _ => False
  end.

End F32.

(** ** Tensors and the torch / numpy operations the class calls *)

Module Torch.

Abbreviation tensor1 A := (list A) (only parsing).
Abbreviation tensor2 A := (list (list A)) (only parsing).
Abbreviation tensor3 A := (list (list (list A))) (only parsing).

(** Shapes: a tensor is a rectangular nested list. *)
Definition shape2 {A} (n1 n2 : nat) (x : tensor2 A) : Prop :=
  length x = n1 /\ Forall (fun r => length r = n2) x.
Definition shape3 {A} (n1 n2 n3 : nat) (x : tensor3 A) : Prop :=
  length x = n1 /\ Forall (shape2 n2 n3) x.

(** int64 addition wraps around. *)
Definition wrap64 (z : Z) : Z := (z + 2 ^ 63) mod 2 ^ 64 - 2 ^ 63.

(** Broadcasting along one dimension: equal sizes are paired, a size of 1
    is stretched, anything else raises [RuntimeError]. *)
Definition broadcast {A B C} (f : A -> B -> result C)
    (xs : list A) (ys : list B) : result (list C) :=
  if decide (length xs = length ys)
  then mapM (fun p => f (fst p) (snd p)) (zip xs ys)
  else
    match xs, ys with
    | [x], _ => mapM (f x) ys
    | _, [y] => mapM (fun x => f x y) xs
    | _, _ => Err RuntimeError
    end.

Definition lift2 {A B C} (f : A -> B -> C) (a : A) (b : B) : result C :=
  OK (f a b).

(** [x * y] on two rank-3 float tensors. *)
Definition mul3 : tensor3 F32.t -> tensor3 F32.t -> result (tensor3 F32.t) :=
  broadcast (broadcast (broadcast (lift2 F32.mul))).

(** [x / y] on two rank-2 float tensors. *)
Definition div2 : tensor2 F32.t -> tensor2 F32.t -> result (tensor2 F32.t) :=
  broadcast (broadcast (lift2 F32.div)).

(** The entry at row [b] and column [d] of a rank-2 tensor. *)
Definition entry {A} (x : tensor2 A) (b d : nat) : option A :=
  x !! b ≫= fun row => row !! d.

(** [m.unsqueeze(-1)] on a rank-2 tensor. *)
Definition unsqueeze_last {A} (m : tensor2 A) : tensor3 A :=
  map (map (fun x => [x])) m.

(** [m.float()] on int64 tensors of rank 2 and 3. *)
Definition float2 (m : tensor2 Z) : tensor2 F32.t := map (map F32.of_int) m.
Definition float3 (m : tensor3 Z) : tensor3 F32.t := map float2 m.

(** One item of the product of the hidden states with the stretched mask:
    every row (token) multiplied by the flag of its position. *)
Definition masked_rows (rows : tensor2 F32.t) (mask_row : list Z) : tensor2 F32.t :=
  zip_with (fun row m => map (fun v => F32.mul v (F32.of_int m)) row) rows mask_row.

(** Sum of the rows of one (tokens, dim) matrix, accumulated from zero in
    token order.  A nested list with no row carries no width: the sum of an
    item without token positions is the empty row here. *)
Definition sum_rows (rows : tensor2 F32.t) : tensor1 F32.t :=
  match rows with
  | [] => []
  | r :: _ => fold_left (zip_with F32.add) rows (replicate (length r) F32.zero)
  end.

(** [torch.sum(x, dim=1)] on a rank-3 float tensor. *)
Definition sum_dim1 (x : tensor3 F32.t) : tensor2 F32.t := map sum_rows x.

(** [m.sum(dim=1, keepdim=True)] on a rank-2 int64 tensor. *)
Definition sum_dim1_keepdim (m : tensor2 Z) : tensor2 Z :=
  map (fun row => [wrap64 (fold_left Z.add row 0)]) m.

(** [x[:, 0]] on a rank-3 tensor. *)
Definition select_dim1_0 {A} (x : tensor3 A) : result (tensor2 A) :=
  mapM Py.first x.

(** [np.concatenate(arrays, axis=0)] on a list of rank-2 arrays: an empty
    list and rows of different widths raise [ValueError] (an array without
    rows carries no width here and fits any other). *)
Definition same_width {A} (arrays : list (tensor2 A)) : bool :=
  match concat arrays with
  | [] => true
  | r :: rs => forallb (fun r' => Nat.eqb (length r') (length r)) rs
  end.

Definition np_concatenate {A} (arrays : list (tensor2 A)) : result (tensor2 A) :=
  match arrays with
  | [] => Err ValueError
  | _ => if same_width arrays then OK (concat arrays) else Err ValueError
  end.

End Torch.

(** ** The collaborators *)

Inductive device : Type := cuda | cpu.

(** What the tokenizer returns: token ids and the attention mask, both of
    shape (batch, tokens). *)
Record BatchEncoding : Type := {
  input_ids : Torch.tensor2 Z;
  attention_mask : Torch.tensor2 Z
}.

(** An element of a corpus or of a list of sentences: a plain string or a
    record ([dict]) from field names to strings. *)
Inductive item : Type :=
  | Text (s : Py.str)
  | Doc (d : gmap Py.str Py.str).

Record Backend : Type := {
  Tokenizer : Type;
  Model : Type;
  (** [AutoTokenizer.from_pretrained], [AutoModel.from_pretrained] *)
  AutoTokenizer_from_pretrained : option Py.str -> result Tokenizer;
  AutoModel_from_pretrained : option Py.str -> result Model;
  (** [torch.cuda.is_available()], [torch.cuda.device_count()] *)
  cuda_is_available : bool;
  cuda_device_count : Z;
  (** [model.to(device)], [torch.nn.DataParallel(model)] *)
  Model_to : Model -> device -> result Model;
  DataParallel : Model -> Model;
  (** [tokenizer(batch, padding=True, truncation=True, return_tensors='pt',
      max_length=max_length).to(device)] *)
  Tokenizer_call : Tokenizer -> list item -> Z -> device -> result BatchEncoding;
  (** the model called on the unpacked [inputs] with [return_dict=True],
      then [.last_hidden_state] *)
  Model_call : Model -> BatchEncoding -> result (Torch.tensor3 F32.t);
  (** [torch.nn.functional.normalize(x, dim=-1)] *)
  F_normalize : Torch.tensor2 F32.t -> Torch.tensor2 F32.t
}.

(** A Python value that is a rank-2 float tensor or [None]. *)
Inductive value : Type :=
  | PyNone
  | PyTensor (x : Torch.tensor2 F32.t).

(** ** The class *)

Section FlagModel.

Variable B : Backend.

(** *** Attributes of an instance under construction *)

Inductive attr : Type :=
  | A_tokenizer (t : Tokenizer B)
  | A_model (m : Model B)
  | A_str (s : Py.str)
  | A_opt_str (s : option Py.str)
  | A_bool (b : bool)
  | A_device (d : device)
  | A_int (z : Z).

Definition attrs := gmap string attr.

Definition setattr (self : attrs) (name : string) (v : attr) : attrs :=
  <[name := v]> self.

Definition getattr (self : attrs) (name : string) : result attr :=
  match self !! name with
  | Some v => OK v
  | None => Err (AttributeError name)
  end.

Definition get_tokenizer (self : attrs) (name : string) : result (Tokenizer B) :=
  v ← getattr self name;
  match v with A_tokenizer t => OK t | _ => Err (AttributeError name) end.
Definition get_model (self : attrs) (name : string) : result (Model B) :=
  v ← getattr self name;
  match v with A_model m => OK m | _ => Err (AttributeError name) end.
Definition get_str (self : attrs) (name : string) : result Py.str :=
  v ← getattr self name;
  match v with A_str s => OK s | _ => Err (AttributeError name) end.
Definition get_opt_str (self : attrs) (name : string) : result (option Py.str) :=
  v ← getattr self name;
  match v with A_opt_str s => OK s | _ => Err (AttributeError name) end.
Definition get_bool (self : attrs) (name : string) : result bool :=
  v ← getattr self name;
  match v with A_bool b => OK b | _ => Err (AttributeError name) end.
Definition get_device (self : attrs) (name : string) : result device :=
  v ← getattr self name;
  match v with A_device d => OK d | _ => Err (AttributeError name) end.
Definition get_int (self : attrs) (name : string) : result Z :=
  v ← getattr self name;
  match v with A_int z => OK z | _ => Err (AttributeError name) end.

(** *** An initialised instance *)

Record FlagModel : Type := {
  tokenizer : Tokenizer B;
  model : Model B;
  query_instruction_for_retrieval : option Py.str;
  normalize_embeddings : bool;
  pooling_method : Py.str;
  device_ : device;
  num_gpus : Z
}.

Definition instance_of (self : attrs) : result FlagModel :=
  t ← get_tokenizer self "tokenizer";
  m ← get_model self "model";
  q ← get_opt_str self "query_instruction_for_retrieval";
  n ← get_bool self "normalize_embeddings";
  p ← get_str self "pooling_method";
  d ← get_device self "device";
  g ← get_int self "num_gpus";
  OK {| tokenizer := t; model := m; query_instruction_for_retrieval := q;
        normalize_embeddings := n; pooling_method := p;
        device_ := d; num_gpus := g |}.

(** *** [__init__] *)

Definition __init__ (model_name_or_path : option Py.str) (pooling_method : Py.str)
    (normalize_embeddings : bool) (query_instruction_for_retrieval : option Py.str)
    : result FlagModel :=
  let self : attrs := ∅ in
  t ← AutoTokenizer_from_pretrained B model_name_or_path;
  let self := setattr self "tokenizer" (A_tokenizer t) in
  m ← AutoModel_from_pretrained B model_name_or_path;
  let self := setattr self "model" (A_model m) in
  let self := setattr self "query_instruction_for_retrieval"
                      (A_opt_str query_instruction_for_retrieval) in
  let self := setattr self "normalize_embeddings" (A_bool normalize_embeddings) in
  let self := setattr self "pooling_method" (A_str pooling_method) in
  let self := setattr self "device"
                      (A_device (if cuda_is_available B then cuda else cpu)) in
  m ← get_model self "model";
  d ← get_device self "device";
  m ← Model_to B m d;
  let self := setattr self "model" (A_model m) in
  let self := setattr self "num_gpus" (A_int (cuda_device_count B)) in
  n ← get_int self "num_gpus";
  self ← (if 1 <? n then
            m ← get_model self "model";
            let self := setattr self "model" (A_model (DataParallel B m)) in
            b ← get_int self "batch_size";
            n ← get_int self "num_gpus";
            OK (setattr self "batch_size" (A_int (b * n)))
          else OK self);
  instance_of self.

(** *** [pooling] *)

Definition pooling (self : FlagModel) (last_hidden_state : Torch.tensor3 F32.t)
    (attention_mask : Torch.tensor2 Z) : result value :=
  if decide (pooling_method self = Py.lit "cls") then
    x ← Torch.select_dim1_0 last_hidden_state;
    OK (PyTensor x)
  else if decide (pooling_method self = Py.lit "mean") then
    x ← Torch.mul3 last_hidden_state
          (Torch.float3 (Torch.unsqueeze_last attention_mask));
    let s := Torch.sum_dim1 x in
    let d := Torch.float2 (Torch.sum_dim1_keepdim attention_mask) in
    x ← Torch.div2 s d;
    OK (PyTensor x)
  else OK PyNone.

(** *** [encode] *)

(** [torch.nn.functional.normalize(embeddings, dim=-1)] *)
Definition normalize (embeddings : value) : result value :=
  match embeddings with
  | PyTensor x => OK (PyTensor (F_normalize B x))
  | PyNone => Err (AttributeError "norm")
  end.

(** [embeddings.cpu().numpy()] *)
Definition cpu_numpy (embeddings : value) : result (Torch.tensor2 F32.t) :=
  match embeddings with
  | PyTensor x => OK x
  | PyNone => Err (AttributeError "cpu")
  end.

(** The body of the loop over batches.  [torch.no_grad], [self.model.eval()]
    and the progress bar change none of the values and are left out. *)
Definition encode_batch (self : FlagModel) (sentences_batch : list item)
    (max_length : Z) : result (Torch.tensor2 F32.t) :=
  inputs ← Tokenizer_call B (tokenizer self) sentences_batch max_length (device_ self);
  last_hidden_state ← Model_call B (model self) inputs;
  embeddings ← pooling self last_hidden_state (attention_mask inputs);
  embeddings ← (if normalize_embeddings self then normalize embeddings
                else OK embeddings);
  cpu_numpy embeddings.

(** The batch size the loop runs with. *)
Definition effective_batch_size (self : FlagModel) (batch_size : Z) : Z :=
  if 0 <? num_gpus self then batch_size * num_gpus self else batch_size.

Definition encode (self : FlagModel) (sentences : list item)
    (batch_size max_length : Z) : result (Torch.tensor2 F32.t) :=
  let batch_size := effective_batch_size self batch_size in
  starts ← Py.range 0 (Z.of_nat (length sentences)) batch_size;
  all_embeddings ←
    mapM (fun start_index =>
            encode_batch self
              (Py.slice sentences start_index (start_index + batch_size))
              max_length)
         starts;
  Torch.np_concatenate all_embeddings.

(** *** [encode_queries] *)

Definition encode_queries (self : FlagModel) (queries : list Py.str)
    (batch_size max_length : Z) : result (Torch.tensor2 F32.t) :=
  let input_texts :=
    match query_instruction_for_retrieval self with
    | Some instruction => map (Py.format2 instruction) queries
    | None => queries
    end in
  encode self (map Text input_texts) batch_size max_length.

(** *** [encode_corpus] *)

(** [isinstance(x, dict)] *)
Definition is_dict (x : item) : bool :=
  match x with Doc _ => true | Text _ => false end.

(** [doc[key]] *)
Definition getitem (d : gmap Py.str Py.str) (key : Py.str) : result Py.str :=
  match d !! key with
  | Some v => OK v
  | None => Err (KeyError key)
  end.

(** ['{} {}'.format(doc.get('title', ''), doc['text']).strip()] *)
Definition doc_text (doc : item) : result item :=
  match doc with
  | Text _ => Err (AttributeError "get")
  | Doc d =>
      let title := default (Py.lit "") (d !! Py.lit "title") in
      text ← getitem d (Py.lit "text");
      OK (Text (Py.strip (Py.format2_sp title text)))
  end.

Definition encode_corpus (self : FlagModel) (corpus : list item)
    (batch_size max_length : Z) : result (Torch.tensor2 F32.t) :=
  c0 ← Py.first corpus;
  input_texts ← (if is_dict c0 then mapM doc_text corpus else OK corpus);
  encode self input_texts batch_size max_length.

End FlagModel.

Arguments tokenizer {B} _.
Arguments model {B} _.
Arguments query_instruction_for_retrieval {B} _.
Arguments normalize_embeddings {B} _.
Arguments pooling_method {B} _.
Arguments device_ {B} _.
Arguments num_gpus {B} _.
Arguments pooling {B} self last_hidden_state attention_mask.
Arguments encode_batch {B} self sentences_batch max_length.
Arguments effective_batch_size {B} self batch_size.
Arguments encode {B} self sentences batch_size max_length.
Arguments encode_queries {B} self queries batch_size max_length.
Arguments encode_corpus {B} self corpus batch_size max_length.

(** ** What the specification says, in its own words *)

Module Spec.

(** The query as it is encoded: the instruction, when one is configured,
    in front of the query. *)
Definition with_instruction (instruction : option Py.str) (q : Py.str) : Py.str :=
  match instruction with
  | Some i => i ++ q
  | None => q
  end.

(** The text of a record: title (empty when absent), a space, the text,
    trimmed. *)
Definition record_text (d : gmap Py.str Py.str) : Py.str :=
  Py.strip (default [] (d !! Py.lit "title") ++ Py.lit " "
            ++ default [] (d !! Py.lit "text")).

Definition has_text (d : gmap Py.str Py.str) : Prop :=
  is_Some (d !! Py.lit "text").

(** Masked mean of one item, at dimension [d]: the sum over the token
    positions of hidden state times mask flag, divided by the mask sum. *)
Definition masked_sum (rows : Torch.tensor2 F32.t) (mask_row : list Z) (d : nat) : F32.t :=
  fold_left F32.add
    (zip_with (fun row m => F32.mul (nth d row F32.zero) (F32.of_int m)) rows mask_row)
    F32.zero.

Definition mask_count (mask_row : list Z) : F32.t :=
  F32.of_int (Torch.wrap64 (fold_left Z.add mask_row 0)).

Definition masked_mean (rows : Torch.tensor2 F32.t) (mask_row : list Z) (d : nat) : F32.t :=
  F32.div (masked_sum rows mask_row d) (mask_count mask_row).

Definition mean_pool (dim : nat) (h : Torch.tensor3 F32.t) (mask : Torch.tensor2 Z)
    : Torch.tensor2 F32.t :=
  zip_with (fun rows mask_row => map (masked_mean rows mask_row) (seq 0 dim)) h mask.

(** The chunk of index [i] of a list cut into pieces of [b] elements, and
    the list of all the chunks, in order. *)
Definition chunk {A} (b : nat) (l : list A) (i : nat) : list A :=
  take b (drop (i * b) l).

Definition batches {A} (b : nat) (l : list A) : list (list A) :=
  match l with
  | [] => []
  | _ => map (chunk b l) (seq 0 (S ((length l - 1) / b)))
  end.

End Spec.

(** ** The text of a record, described without the code's functions *)

Module CorpusSpec.

(** The whitespace characters, one by one: the ASCII controls TAB, LF, VT,
    FF, CR, FS, GS, RS, US, the space, NEL, the no-break space and the
    Unicode space separators and line and paragraph separators. *)
Definition whitespace : list N :=
  [0x09; 0x0A; 0x0B; 0x0C; 0x0D; 0x1C; 0x1D; 0x1E; 0x1F; 0x20; 0x85; 0xA0; 0x1680;
   0x2000; 0x2001; 0x2002; 0x2003; 0x2004; 0x2005; 0x2006; 0x2007; 0x2008; 0x2009;
   0x200A; 0x2028; 0x2029; 0x202F; 0x205F; 0x3000]%N.

Definition is_space (c : N) : Prop := In c whitespace.

(** [s] is [joined] with the surrounding whitespace removed: [joined] is [s]
    between two runs of whitespace, and [s] neither starts nor ends with a
    whitespace character. *)
Definition trim_of (joined s : Py.str) : Prop :=
  (exists l r, joined = l ++ s ++ r /\ Forall is_space l /\ Forall is_space r) /\
  (forall c, head s = Some c -> ~ is_space c) /\
  (forall c, last s = Some c -> ~ is_space c).

(** [s] is the text of the record [d]: the title (empty when absent), one
    space (code point 32) and the text, with the surrounding whitespace
    removed. *)
Definition text_of_record (d : gmap Py.str Py.str) (s : Py.str) : Prop :=
  exists text,
    d !! Py.lit "text" = Some text /\
    trim_of (default [] (d !! Py.lit "title") ++ [32%N] ++ text) s.

End CorpusSpec.

(** ** The contract of the collaborators *)

Definition supported_pooling {B} (self : FlagModel B) : Prop :=
  pooling_method self = Py.lit "cls" \/ pooling_method self = Py.lit "mean".

(** On a non-empty batch of strings the tokenizer and the encoder succeed;
    the hidden states have shape (batch, tokens, dim) and the mask has shape
    (batch, tokens), with at least one token position. *)
Definition batch_contract {B} (self : FlagModel B) (D : nat) (max_length : Z) : Prop :=
  forall batch : list Py.str, batch <> [] ->
    exists inputs h T,
      Tokenizer_call B (tokenizer self) (map Text batch) max_length (device_ self) = OK inputs /\
      Model_call B (model self) inputs = OK h /\
      (0 < T)%nat /\
      Torch.shape3 (length batch) T D h /\
      Torch.shape2 (length batch) T (attention_mask inputs).

(** Normalisation keeps the shape. *)
Definition normalize_contract (B : Backend) : Prop :=
  forall x n D, Torch.shape2 n D x -> Torch.shape2 n D (F_normalize B x).

(** ** A small backend to run the class on

    A character-level tokenizer (a leading token 101, one token per code
    point, padding with 0 to the longest text of the batch), an encoder whose
    hidden state at a token is the pair (id, 2 id), and the L2 normalisation
    with torch's default [eps = 1e-12]. *)

Module Demo.

Definition text_of (x : item) : result Py.str :=
  match x with
  | Text s => OK s
  | Doc _ => Err ValueError
  end.

Definition tokenize (batch : list item) : result BatchEncoding :=
  texts ← mapM text_of batch;
  let longest := max_list (map length texts) in
  OK {| input_ids :=
          map (fun s => (101 :: map Z.of_N s) ++ replicate (longest - length s)%nat 0) texts;
        attention_mask :=
          map (fun s : Py.str => replicate (S (length s)) 1
                                 ++ replicate (longest - length s)%nat 0) texts |}.

Definition hidden (inputs : BatchEncoding) : Torch.tensor3 F32.t :=
  map (map (fun id => [F32.of_int id; F32.of_int (2 * id)])) (input_ids inputs).

Definition eps : F32.t :=
  Eval vm_compute in F32.div (F32.of_int 1) (F32.of_int (10 ^ 12)).

Definition l2_normalize (row : list F32.t) : list F32.t :=
  let norm := SFsqrt F32.prec F32.emax
                (fold_left F32.add (map (fun x => F32.mul x x) row) F32.zero) in
  let denom := if SFltb norm eps then eps else norm in
  map (fun x => F32.div x denom) row.

Definition backend (gpus : Z) : Backend := {|
  Tokenizer := unit;
  Model := unit;
  AutoTokenizer_from_pretrained name :=
    match name with Some _ => OK tt | None => Err OSError end;
  AutoModel_from_pretrained name :=
    match name with Some _ => OK tt | None => Err OSError end;
  cuda_is_available := 0 <? gpus;
  cuda_device_count := gpus;
  Model_to m _ := OK m;
  DataParallel m := m;
  Tokenizer_call _ batch _ _ := tokenize batch;
  Model_call _ inputs := OK (hidden inputs);
  F_normalize x := map l2_normalize x
|}.

(** An instance as [__init__] leaves it on a machine with [gpus] devices. *)
Definition flag_model (gpus : Z) (pooling_method : string) (normalize : bool)
    (instruction : option Py.str) : FlagModel (backend gpus) := {|
  tokenizer := tt : Tokenizer (backend gpus);
  model := tt : Model (backend gpus);
  query_instruction_for_retrieval := instruction;
  normalize_embeddings := normalize;
  pooling_method := Py.lit pooling_method;
  device_ := if 0 <? gpus then cuda else cpu;
  num_gpus := gpus
|}.

End Demo.

(** ** Further notions the statements use *)

(** The instance [__init__] leaves when it succeeds. *)
Definition initialised (B : Backend) (pooling_method : Py.str) (normalize : bool)
    (instruction : option Py.str) (t : Tokenizer B) (m : Model B) : FlagModel B :=
  {| tokenizer := t; model := m;
     query_instruction_for_retrieval := instruction;
     normalize_embeddings := normalize; pooling_method := pooling_method;
     device_ := if cuda_is_available B then cuda else cpu;
     num_gpus := cuda_device_count B |}.

(** The exponent of a finite float is at least the minimal exponent. *)
Definition exp_ok (x : F32.t) : Prop :=
  match x with
  | S754_finite _ _ e => -149 <= e
  | _ => True
  end.

(** The elements of [rows] at the positions whose mask flag is not 0. *)
Fixpoint unmasked {A} (rows : list A) (mask_row : list Z) : list A :=
  match rows, mask_row with
  | r :: rows', m :: mask_row' =>
      if m =? 0 then unmasked rows' mask_row' else r :: unmasked rows' mask_row'
  | _, _ => []
  end.

(** The sum of the states of the real tokens over their number. *)
Definition mean_of_real_tokens (rows : Torch.tensor2 F32.t) (mask_row : list Z) (d : nat) : F32.t :=
  F32.div
    (fold_left F32.add (map (fun row => nth d row F32.zero) (unmasked rows mask_row)) F32.zero)
    (F32.of_int (Z.of_nat (length (unmasked rows mask_row)))).

(** A string with no whitespace at either end. *)
Definition trimmed (s : Py.str) : Prop :=
  (forall c, head s = Some c -> Py.isspace c = false) /\
  (forall c, last s = Some c -> Py.isspace c = false).

(** * Properties *)

(** ** Sanity checks of the Python built-ins *)

Example strip_example : Py.strip (Py.lit "  T B ") = Py.lit "T B".
Proof. reflexivity. Qed.

Example range_example : Py.range 0 5 2 = OK [0; 2; 4].
Proof. reflexivity. Qed.

Example range_zero_step : Py.range 0 5 0 = Err ValueError.
Proof. reflexivity. Qed.

Example slice_example : Py.slice [1; 2; 3; 4; 5] 4 6 = [5].
Proof. reflexivity. Qed.

Example init_on_cpu :
  __init__ (Demo.backend 0) (Some (Py.lit "bge")) (Py.lit "cls") true None
  = OK (Demo.flag_model 0 "cls" true None).
Proof. reflexivity. Qed.

Example encode_example :
  encode (Demo.flag_model 0 "cls" false None)
         [Text (Py.lit "ab"); Text (Py.lit "c"); Text (Py.lit "")] 2 512
  = OK [[F32.of_int 101; F32.of_int 202]; [F32.of_int 101; F32.of_int 202];
        [F32.of_int 101; F32.of_int 202]].
Proof. vm_compute. reflexivity. Qed.

(** ** The error monad and [mapM] *)

Lemma bind_OK {A C} (m : result A) (f : A -> result C) a :
  m = OK a -> m ≫= f = f a.
Proof. intros ->. reflexivity. Qed.

Lemma bind_Err {A C} (m : result A) (f : A -> result C) e :
  m = Err e -> m ≫= f = Err e.
Proof. intros ->. reflexivity. Qed.

Lemma mapM_cons {A C} (f : A -> result C) x l :
  mapM f (x :: l) = y ← f x; k ← mapM f l; OK (y :: k).
Proof. reflexivity. Qed.

Lemma mapM_map {A A' C} (f : A' -> result C) (g : A -> A') l :
  mapM f (map g l) = mapM (fun x => f (g x)) l.
Proof.
  induction l as [|x l IH]; [reflexivity|].
  cbn [map]. rewrite !mapM_cons, IH. reflexivity.
Qed.

(** A [mapM] whose function succeeds on every element is a [map]. *)
Lemma mapM_OK_map {A C} (f : A -> result C) (g : A -> C) l :
  Forall (fun x => f x = OK (g x)) l -> mapM f l = OK (map g l).
Proof.
  induction 1 as [|x l Hx _ IH]; [reflexivity|].
  rewrite mapM_cons, Hx. cbn. rewrite IH. reflexivity.
Qed.

(** A successful [mapM] pairs every input with its output, in order. *)
Lemma mapM_OK_Forall2 {A C} (f : A -> result C) l k :
  mapM f l = OK k <-> Forall2 (fun x y => f x = OK y) l k.
Proof.
  split.
  - revert k. induction l as [|x l IH]; intros k H.
    + injection H as <-. constructor.
    + rewrite mapM_cons in H. destruct (f x) as [y|] eqn:Hx; [|discriminate].
      cbn in H. destruct (mapM f l) as [k'|]; [|discriminate].
      injection H as <-. constructor; [assumption | apply IH; reflexivity].
  - induction 1 as [|x y l k Hx _ IH]; [reflexivity|].
    rewrite mapM_cons, Hx. cbn. rewrite IH. reflexivity.
Qed.

(** [mapM] stops at the first element on which the function fails. *)
Lemma mapM_first_Err {A C} (f : A -> result C) l1 x l2 e :
  Forall (fun y => is_OK (f y) = true) l1 -> f x = Err e ->
  mapM f (l1 ++ x :: l2) = Err e.
Proof.
  intros H Hx. induction H as [|y l1 Hy _ IH]; cbn [app]; rewrite mapM_cons.
  - rewrite Hx. reflexivity.
  - destruct (f y); [|discriminate]. cbn. rewrite IH. reflexivity.
Qed.

(** ** C2: the empty input *)

Lemma range_empty step : step <> 0 -> Py.range 0 0 step = OK [].
Proof.
  intros H. unfold Py.range. destruct (Z.eqb_spec step 0) as [|_]; [contradiction|].
  unfold Py.range_length. rewrite Z.ltb_irrefl. destruct (0 <? step); reflexivity.
Qed.

Lemma encode_nil {B} (self : FlagModel B) batch_size max_length :
  encode self [] batch_size max_length = Err ValueError.
Proof.
  unfold encode. change (Z.of_nat (length (@nil item))) with 0.
  destruct (Z.eq_dec (effective_batch_size self batch_size) 0) as [E|E].
  - rewrite E. reflexivity.
  - rewrite (range_empty _ E). reflexivity.
Qed.

(** C2. On the empty list none of the three operations returns an array:
    [encode] and [encode_queries] raise [ValueError] (from [range] when the
    effective batch size is 0, from [np.concatenate] of no array otherwise)
    and [encode_corpus] raises [IndexError] at [corpus[0]]. *)
Theorem empty_input_raises {B} (self : FlagModel B) (batch_size max_length : Z) :
  encode self [] batch_size max_length = Err ValueError /\
  encode_queries self [] batch_size max_length = Err ValueError /\
  encode_corpus self [] batch_size max_length = Err IndexError.
Proof.
  split; [apply encode_nil|]. split; [|reflexivity].
  unfold encode_queries. destruct (query_instruction_for_retrieval self); apply encode_nil.
Qed.

(** ** C3: construction with several devices *)

Lemma getattr_setattr (B : Backend) (self : attrs B) name name' v :
  getattr B (setattr B self name v) name'
  = if decide (name = name') then OK v else getattr B self name'.
Proof.
  unfold getattr, setattr, attrs in *. rewrite lookup_insert. destruct (decide (name = name')); reflexivity.
Qed.

Lemma getattr_empty (B : Backend) name : getattr B ∅ name = Err (AttributeError name).
Proof. reflexivity. Qed.

(** Reads of attributes of an instance built by a sequence of assignments. *)
Ltac read_attr :=
  first [ rewrite getattr_setattr; case_decide; [try discriminate | try congruence]; []
        | rewrite getattr_empty ].
Ltac run_init :=
  unfold get_tokenizer, get_model, get_str, get_opt_str, get_bool, get_device, get_int;
  repeat first [ read_attr | progress cbn [mbind result_bind mret result_ret] ].

(** C3. When more than one device is reported and the tokenizer and the model
    load, [__init__] raises [AttributeError]: it reads [self.batch_size],
    which nothing has assigned, after wrapping the model in [DataParallel]. *)
Theorem init_multi_gpu_raises (B : Backend) (name : option Py.str) (pooling_method : Py.str)
    (normalize : bool) (instruction : option Py.str) t m m' :
  1 < cuda_device_count B ->
  AutoTokenizer_from_pretrained B name = OK t ->
  AutoModel_from_pretrained B name = OK m ->
  Model_to B m (if cuda_is_available B then cuda else cpu) = OK m' ->
  __init__ B name pooling_method normalize instruction = Err (AttributeError "batch_size").
Proof.
  intros Hn Ht Hm Hto. unfold __init__. rewrite Ht, Hm. run_init.
  rewrite Hto. run_init. apply Z.ltb_lt in Hn. rewrite Hn. run_init. reflexivity.
Qed.

Lemma init_multi_gpu_raises_witness :
  __init__ (Demo.backend 2) (Some (Py.lit "BAAI/bge-small-en")) (Py.lit "cls") true None
  = Err (AttributeError "batch_size").
Proof.
  apply (init_multi_gpu_raises (Demo.backend 2) _ _ _ _ tt tt tt);
    [reflexivity | reflexivity | reflexivity | reflexivity].
Defined.

(** With at most one device the same call succeeds. *)
Lemma init_single_device (B : Backend) name pooling_method normalize instruction t m m' :
  cuda_device_count B <= 1 ->
  AutoTokenizer_from_pretrained B name = OK t ->
  AutoModel_from_pretrained B name = OK m ->
  Model_to B m (if cuda_is_available B then cuda else cpu) = OK m' ->
  __init__ B name pooling_method normalize instruction
  = OK {| tokenizer := t; model := m';
          query_instruction_for_retrieval := instruction;
          normalize_embeddings := normalize; pooling_method := pooling_method;
          device_ := if cuda_is_available B then cuda else cpu;
          num_gpus := cuda_device_count B |}.
Proof.
  intros Hn Ht Hm Hto. unfold __init__, instance_of. rewrite Ht, Hm. run_init.
  rewrite Hto. run_init. apply Z.ltb_ge in Hn. rewrite Hn. run_init. reflexivity.
Qed.

(** ** C5: [encode_queries] *)

(** C5. [encode_queries] returns what [encode] returns, with the same batch
    size and maximal length, on the queries with the configured instruction
    in front of each of them, and on the queries themselves when no
    instruction is configured. *)
Theorem encode_queries_prepends {B} (self : FlagModel B) (queries : list Py.str)
    (batch_size max_length : Z) :
  encode_queries self queries batch_size max_length
  = encode self
      (map Text (map (Spec.with_instruction (query_instruction_for_retrieval self)) queries))
      batch_size max_length.
Proof.
  unfold encode_queries, Spec.with_instruction, Py.format2.
  destruct (query_instruction_for_retrieval self) as [i|]; [reflexivity|].
  rewrite map_id. reflexivity.
Qed.

Example encode_queries_example :
  encode_queries (Demo.flag_model 0 "cls" true (Some (Py.lit "q: "))) [Py.lit "foo"] 256 512
  = encode (Demo.flag_model 0 "cls" true (Some (Py.lit "q: "))) [Text (Py.lit "q: foo")] 256 512.
Proof. reflexivity. Qed.

(** ** C8: a pooling method that is neither 'cls' nor 'mean' *)

(** C8. With a pooling method that is neither 'cls' nor 'mean', [pooling]
    raises nothing: it falls through both tests and returns [None], whatever
    the hidden states and the mask. *)
Theorem pooling_unsupported_returns_none {B} (self : FlagModel B)
    (h : Torch.tensor3 F32.t) (mask : Torch.tensor2 Z) :
  pooling_method self <> Py.lit "cls" -> pooling_method self <> Py.lit "mean" ->
  pooling self h mask = OK PyNone.
Proof.
  intros H1 H2. unfold pooling.
  destruct (decide (pooling_method self = Py.lit "cls")); [contradiction|].
  destruct (decide (pooling_method self = Py.lit "mean")); [contradiction|].
  reflexivity.
Qed.

Lemma pooling_unsupported_returns_none_witness :
  pooling (Demo.flag_model 0 "max" true None)
          [[[F32.of_int 1; F32.of_int 2]; [F32.of_int 3; F32.of_int 4]]] [[1; 1]]
  = OK PyNone.
Proof. apply pooling_unsupported_returns_none; discriminate. Defined.

(** [encode] then fails on the missing tensor, with an error that does not
    name the pooling method. *)
Example encode_unsupported_pooling :
  encode (Demo.flag_model 0 "max" true None) [Text (Py.lit "a")] 256 512
  = Err (AttributeError "norm") /\
  encode (Demo.flag_model 0 "max" false None) [Text (Py.lit "a")] 256 512
  = Err (AttributeError "cpu").
Proof. split; reflexivity. Qed.

(** ** C7, C10: [encode_corpus] on records (C6 follows the lemmas on [strip]) *)

Lemma doc_text_record d :
  Spec.has_text d -> doc_text (Doc d) = OK (Text (Spec.record_text d)).
Proof.
  intros [v Hv]. unfold doc_text, getitem, Spec.record_text, Py.format2_sp, Py.str in *.
  rewrite !Hv. reflexivity.
Qed.

Lemma doc_text_missing d :
  d !! Py.lit "text" = None -> doc_text (Doc d) = Err (KeyError (Py.lit "text")).
Proof. intros H. unfold doc_text, getitem. rewrite H. reflexivity. Qed.

Lemma mapM_doc_text_records docs :
  Forall Spec.has_text docs ->
  mapM doc_text (map Doc docs) = OK (map Text (map Spec.record_text docs)).
Proof.
  intros H. rewrite mapM_map, map_map. apply mapM_OK_map.
  eapply Forall_impl; [exact H|]. intros d Hd. apply doc_text_record, Hd.
Qed.

Example encode_corpus_empty_title :
  let self := Demo.flag_model 0 "mean" true None in
  encode_corpus self [Doc {[ Py.lit "title" := Py.lit ""; Py.lit "text" := Py.lit "B" ]}] 256 512
  = encode self [Text (Py.lit "B")] 256 512.
Proof. reflexivity. Qed.

Lemma mapM_doc_text_missing docs :
  Exists (fun d => d !! Py.lit "text" = None) docs ->
  mapM doc_text (map Doc docs) = Err (KeyError (Py.lit "text")).
Proof.
  induction docs as [|d docs IH]; intros H; [inversion H|].
  cbn [map]. rewrite mapM_cons.
  destruct (d !! Py.lit "text") as [v|] eqn:Hd.
  - rewrite doc_text_record by (exists v; exact Hd). cbn.
    rewrite IH; [reflexivity|]. inversion H; subst; [congruence | assumption].
  - rewrite (doc_text_missing _ Hd). reflexivity.
Qed.

(** C7. On a corpus of records of which one has no 'text' field,
    [encode_corpus] raises [KeyError] for the key 'text' and returns
    nothing. *)
Theorem encode_corpus_missing_text_raises {B} (self : FlagModel B)
    (docs : list (gmap Py.str Py.str)) (batch_size max_length : Z) :
  Exists (fun d => d !! Py.lit "text" = None) docs ->
  encode_corpus self (map Doc docs) batch_size max_length = Err (KeyError (Py.lit "text")).
Proof.
  intros H. unfold encode_corpus.
  destruct docs as [|d docs]; [inversion H|].
  cbn [map Py.first is_dict mbind result_bind].
  change (Doc d :: map Doc docs) with (map Doc (d :: docs)).
  rewrite (mapM_doc_text_missing _ H). reflexivity.
Qed.

Lemma encode_corpus_missing_text_raises_witness :
  encode_corpus (Demo.flag_model 0 "cls" true None)
    (map Doc [ {[ Py.lit "title" := Py.lit "T"; Py.lit "text" := Py.lit "B" ]};
               {[ Py.lit "title" := Py.lit "U" ]} ]) 256 512
  = Err (KeyError (Py.lit "text")).
Proof.
  apply encode_corpus_missing_text_raises.
  apply Exists_cons_tl, Exists_cons_hd. vm_compute. reflexivity.
Defined.

Lemma mapM_doc_text_plain (l : list item) s :
  In (Text s) l ->
  exists e, mapM doc_text l = Err e /\
            (e = AttributeError "get" \/ e = KeyError (Py.lit "text")).
Proof.
  induction l as [|x l IH]; intros H; [destruct H|].
  rewrite mapM_cons. destruct x as [s'|d].
  - exists (AttributeError "get"). split; [reflexivity | left; reflexivity].
  - destruct H as [H|H]; [discriminate|].
    destruct (d !! Py.lit "text") as [v|] eqn:Hd.
    + rewrite doc_text_record by (exists v; exact Hd). cbn.
      destruct (IH H) as (e & -> & He). exists e. split; [reflexivity | exact He].
    + rewrite (doc_text_missing _ Hd). exists (KeyError (Py.lit "text")).
      split; [reflexivity | right; reflexivity].
Qed.

(** C10. [encode_corpus] looks at the first element only.  When it is a
    record, every element is read as a record, so a plain string further on
    makes the call raise ([AttributeError] at that string, unless a record
    before it has no 'text' and raises [KeyError] first).  When it is a plain
    string, the whole corpus, records included, goes to [encode] as it is. *)
Theorem encode_corpus_inspects_first_only {B} (self : FlagModel B) (c0 : item)
    (rest : list item) (batch_size max_length : Z) :
  (is_dict c0 = true ->
     encode_corpus self (c0 :: rest) batch_size max_length
     = (texts ← mapM doc_text (c0 :: rest); encode self texts batch_size max_length) /\
     forall s, In (Text s) rest ->
       exists e, encode_corpus self (c0 :: rest) batch_size max_length = Err e /\
                 (e = AttributeError "get" \/ e = KeyError (Py.lit "text"))) /\
  (is_dict c0 = false ->
     encode_corpus self (c0 :: rest) batch_size max_length
     = encode self (c0 :: rest) batch_size max_length).
Proof.
  split; intros Hc; unfold encode_corpus; cbn [Py.first mbind result_bind]; rewrite Hc.
  - split; [reflexivity|]. intros s Hs.
    destruct (mapM_doc_text_plain (c0 :: rest) s (or_intror Hs)) as (e & -> & He).
    exists e. split; [reflexivity | exact He].
  - reflexivity.
Qed.

Lemma encode_corpus_inspects_first_only_witness :
  let self := Demo.flag_model 0 "cls" true None in
  let d : gmap Py.str Py.str := {[ Py.lit "text" := Py.lit "B" ]} in
  (exists e, encode_corpus self [Doc d; Text (Py.lit "A")] 256 512 = Err e /\
             (e = AttributeError "get" \/ e = KeyError (Py.lit "text"))) /\
  encode_corpus self [Text (Py.lit "A"); Doc d] 256 512
  = encode self [Text (Py.lit "A"); Doc d] 256 512.
Proof.
  intros self d. split.
  - apply (proj2 (proj1 (encode_corpus_inspects_first_only self (Doc d)
                           [Text (Py.lit "A")] 256 512) eq_refl) (Py.lit "A")).
    left. reflexivity.
  - apply (proj2 (encode_corpus_inspects_first_only self (Text (Py.lit "A"))
                    [Doc d] 256 512) eq_refl).
Defined.

(** ** float32: multiplying and dividing by one, adding zero *)

Lemma digits2_pos_xO p : Zpos (digits2_pos p~0) = Zpos (digits2_pos p) + 1.
Proof. simpl. lia. Qed.

(** A canonical mantissa is not shifted. *)
Lemma shr_fexp_canonical m e :
  canonical_mantissa 24 128 m e = true ->
  shr_fexp 24 128 (Zpos m) e loc_Exact
  = ({| shr_m := Zpos m; shr_r := false; shr_s := false |}, e).
Proof.
  unfold canonical_mantissa, shr_fexp. intros H%Z.eqb_eq.
  simpl Zdigits2. rewrite H, Z.sub_diag. reflexivity.
Qed.

(** A canonical mantissa with one more low zero bit is shifted back. *)
Lemma shr_fexp_xO m e :
  canonical_mantissa 24 128 m e = true ->
  shr_fexp 24 128 (Zpos m~0) (e - 1) loc_Exact
  = ({| shr_m := Zpos m; shr_r := false; shr_s := false |}, e).
Proof.
  unfold canonical_mantissa, shr_fexp. intros H%Z.eqb_eq.
  unfold Zdigits2. rewrite digits2_pos_xO.
  replace (Z.pos (digits2_pos m) + 1 + (e - 1)) with (Z.pos (digits2_pos m) + e) by lia.
  rewrite H. replace (e - (e - 1)) with 1 by lia.
  unfold shr. simpl iter_pos. f_equal. lia.
Qed.

Lemma mul_two23 m :
  (8388608 * m = m~0~0~0~0~0~0~0~0~0~0~0~0~0~0~0~0~0~0~0~0~0~0~0)%positive.
Proof. reflexivity. Qed.

(** The same with the 23 low zero bits a product with 2^23 has. *)
Lemma shr_fexp_mul_one m e :
  canonical_mantissa 24 128 m e = true ->
  shr_fexp 24 128 (Zpos (m * 8388608)) (e + -23) loc_Exact
  = ({| shr_m := Zpos m; shr_r := false; shr_s := false |}, e).
Proof.
  unfold canonical_mantissa, shr_fexp. intros H%Z.eqb_eq.
  rewrite Pos.mul_comm, mul_two23. unfold Zdigits2.
  rewrite !digits2_pos_xO.
  match goal with |- context [fexp _ _ ?a] =>
    replace a with (Z.pos (digits2_pos m) + e) by lia end.
  rewrite H. replace (e - (e + -23)) with 23 by lia.
  unfold shr. simpl iter_pos. f_equal. lia.
Qed.

Lemma round_after_shift s m m' e e' :
  bounded 24 128 m e = true ->
  shr_fexp 24 128 (Zpos m') e' loc_Exact
  = ({| shr_m := Zpos m; shr_r := false; shr_s := false |}, e) ->
  binary_round_aux 24 128 s (Zpos m') e' loc_Exact = S754_finite s m e.
Proof.
  unfold bounded. intros [Hc He]%andb_prop Hs.
  unfold binary_round_aux. rewrite Hs.
  simpl round_nearest_even. rewrite (shr_fexp_canonical _ _ Hc).
  simpl shr_m. rewrite He. reflexivity.
Qed.

Lemma bounded_canonical m e :
  bounded 24 128 m e = true -> canonical_mantissa 24 128 m e = true.
Proof. unfold bounded. intros [Hc _]%andb_prop. exact Hc. Qed.

Lemma F32_mul_one x : F32.finite x = true -> F32.mul x F32.one = x.
Proof.
  unfold F32.finite, F32.valid. intros [Hv Hf]%andb_prop.
  destruct x as [s| | |s m e]; try discriminate.
  - destruct s; reflexivity.
  - cbn in Hv. unfold F32.mul, F32.one, SFmul.
    rewrite (round_after_shift _ m _ e _ Hv (shr_fexp_mul_one _ _ (bounded_canonical _ _ Hv))).
    destruct s; reflexivity.
Qed.

Lemma canonical_digits m e :
  canonical_mantissa 24 128 m e = true ->
  (Zpos (digits2_pos m) = 24 /\ -149 <= e) \/ (Zpos (digits2_pos m) < 24 /\ e = -149).
Proof. unfold canonical_mantissa, fexp, emin. intros H%Z.eqb_eq. lia. Qed.

Lemma shiftl_23 m : Z.shiftl (Zpos m) 23 = Zpos m * 8388608.
Proof. rewrite Z.shiftl_mul_pow2 by lia. reflexivity. Qed.

Lemma shiftl_24 m : Z.shiftl (Zpos m) 24 = Zpos m~0 * 8388608.
Proof.
  rewrite Z.shiftl_mul_pow2 by lia. change (2 ^ 24) with (2 * 8388608).
  rewrite Pos2Z.inj_xO. lia.
Qed.

Lemma div_eucl_two23 a : Z.div_eucl (a * 8388608) 8388608 = (a, 0).
Proof.
  generalize (Z.div_eucl_eq (a * 8388608) 8388608 ltac:(lia)).
  generalize (Z.mod_pos_bound (a * 8388608) 8388608 ltac:(lia)).
  unfold Z.modulo. destruct (Z.div_eucl (a * 8388608) 8388608) as [q r].
  intros Hr Hq. f_equal; lia.
Qed.

(** The quotient of a canonical mantissa by the mantissa of 1.0 is the
    mantissa itself, or twice the mantissa one exponent lower. *)
Lemma div_core_one m e :
  canonical_mantissa 24 128 m e = true ->
  SFdiv_core_binary 24 128 (Zpos m) e 8388608 (-23) = (Zpos m, e, loc_Exact) \/
  SFdiv_core_binary 24 128 (Zpos m) e 8388608 (-23) = (Zpos m~0, e - 1, loc_Exact).
Proof.
  intros Hc. unfold SFdiv_core_binary.
  change (Zdigits2 8388608) with 24.
  change (Zdigits2 (Z.pos m)) with (Z.pos (digits2_pos m)).
  destruct (canonical_digits _ _ Hc) as [[Hd He]|[Hd He]];
    [destruct (Z.eq_dec e (-149)) as [E|E]|].
  - left.
    replace (Z.min (fexp 24 128 (Z.pos (digits2_pos m) + e - (24 + -23))) (e - -23))
      with e by (unfold fexp, emin; lia).
    replace (e - -23 - e) with 23 by lia.
    rewrite shiftl_23, div_eucl_two23. reflexivity.
  - right.
    replace (Z.min (fexp 24 128 (Z.pos (digits2_pos m) + e - (24 + -23))) (e - -23))
      with (e - 1) by (unfold fexp, emin; lia).
    replace (e - -23 - (e - 1)) with 24 by lia.
    rewrite shiftl_24, div_eucl_two23. reflexivity.
  - left.
    replace (Z.min (fexp 24 128 (Z.pos (digits2_pos m) + e - (24 + -23))) (e - -23))
      with e by (unfold fexp, emin; lia).
    replace (e - -23 - e) with 23 by lia.
    rewrite shiftl_23, div_eucl_two23. reflexivity.
Qed.

Lemma F32_div_one x : F32.finite x = true -> F32.div x F32.one = x.
Proof.
  unfold F32.finite, F32.valid. intros [Hv Hf]%andb_prop.
  destruct x as [s| | |s m e]; try discriminate.
  - destruct s; reflexivity.
  - cbn in Hv. pose proof (bounded_canonical _ _ Hv) as Hc.
    unfold F32.div, F32.one, F32.prec, F32.emax, SFdiv.
    destruct (div_core_one _ _ Hc) as [-> | ->].
    + rewrite (round_after_shift _ m _ e _ Hv (shr_fexp_canonical _ _ Hc)).
      destruct s; reflexivity.
    + rewrite (round_after_shift _ m _ e _ Hv (shr_fexp_xO _ _ Hc)).
      destruct s; reflexivity.
Qed.

Lemma F32_mul_zero_finite x :
  F32.is_finite x = true -> exists s, F32.mul x F32.zero = S754_zero s.
Proof. destruct x as [s| | |s m e]; try discriminate; intros _; eexists; reflexivity. Qed.

Lemma F32_mul_zero x : F32.zero_or_nan (F32.mul x F32.zero).
Proof. destruct x as [s|s| |s m e]; exact I. Qed.

Lemma F32_add_zero_l x :
  F32.is_finite x = true -> F32.add F32.zero x = F32.unsigned_zero x.
Proof. destruct x as [[]| | |s m e]; try discriminate; reflexivity. Qed.

Lemma F32_add_signed_zero x s :
  F32.is_finite x = true -> F32.add (F32.unsigned_zero x) (S754_zero s) = F32.unsigned_zero x.
Proof. destruct x as [[]| | |sx m e], s; try discriminate; reflexivity. Qed.

Lemma F32_eqb_unsigned_zero x :
  F32.is_finite x = true -> F32.eqb (F32.unsigned_zero x) x = true.
Proof.
  destruct x as [[]| | |s m e]; try discriminate; intros _; try reflexivity.
  unfold F32.eqb, SFeqb, F32.unsigned_zero, SFcompare.
  rewrite Z.compare_refl, Pos.compare_cont_refl. destruct s; reflexivity.
Qed.

(** ** Broadcasting on rectangular tensors *)

Lemma mapM_zip_with {X Y A A' C} (R : X -> Y -> Prop) (a : X -> Y -> A) (b : X -> Y -> A')
    (f : A -> A' -> result C) (g : X -> Y -> C) xs ys :
  Forall2 R xs ys ->
  (forall x y, R x y -> f (a x y) (b x y) = OK (g x y)) ->
  mapM (fun p => f (fst p) (snd p)) (zip (zip_with a xs ys) (zip_with b xs ys))
  = OK (zip_with g xs ys).
Proof.
  intros H Hf. induction H as [|x y xs ys Hxy _ IH]; [reflexivity|].
  cbn [zip_with]. rewrite mapM_cons. cbn [fst snd]. rewrite (Hf _ _ Hxy). cbn.
  rewrite IH. reflexivity.
Qed.

(** Two tensors of the same size along a dimension are combined entry by
    entry. *)
Lemma broadcast_zip_with {X Y A A' C} (R : X -> Y -> Prop) (a : X -> Y -> A)
    (b : X -> Y -> A') (f : A -> A' -> result C) (g : X -> Y -> C) xs ys :
  Forall2 R xs ys ->
  (forall x y, R x y -> f (a x y) (b x y) = OK (g x y)) ->
  Torch.broadcast f (zip_with a xs ys) (zip_with b xs ys) = OK (zip_with g xs ys).
Proof.
  intros H Hf. unfold Torch.broadcast.
  destruct (decide _) as [_|Hne].
  - exact (mapM_zip_with R a b f g xs ys H Hf).
  - exfalso. apply Hne. rewrite !length_zip_with. reflexivity.
Qed.

(** A tensor of size 1 along a dimension is stretched. *)
Lemma broadcast_scalar {A A' C} (f : A -> A' -> C) xs y :
  Torch.broadcast (Torch.lift2 f) xs [y] = OK (map (fun x => f x y) xs).
Proof.
  unfold Torch.broadcast. destruct (decide _) as [Hlen|Hne].
  - destruct xs as [|x [|x' xs]]; try discriminate. reflexivity.
  - destruct xs as [|x [|x' xs]].
    + reflexivity.
    + exfalso. apply Hne. reflexivity.
    + apply mapM_OK_map. apply Forall_forall. reflexivity.
Qed.

Lemma zip_with_fst {A A'} (xs : list A) (ys : list A') :
  length xs = length ys -> zip_with (fun x _ => x) xs ys = xs.
Proof.
  revert ys. induction xs as [|x xs IH]; intros [|y ys] H; try discriminate; [reflexivity|].
  cbn. f_equal. apply IH. injection H as H. exact H.
Qed.

Lemma zip_with_snd_map {A A' C} (k : A' -> C) (xs : list A) (ys : list A') :
  length xs = length ys -> zip_with (fun _ y => k y) xs ys = map k ys.
Proof.
  revert ys. induction xs as [|x xs IH]; intros [|y ys] H; try discriminate; [reflexivity|].
  cbn. f_equal. apply IH. injection H as H. exact H.
Qed.

Lemma map_zip_with {A A' C E} (f : C -> E) (g : A -> A' -> C) xs ys :
  map f (zip_with g xs ys) = zip_with (fun x y => f (g x y)) xs ys.
Proof.
  revert ys. induction xs as [|x xs IH]; intros [|y ys]; try reflexivity.
  cbn. f_equal. apply IH.
Qed.

Lemma zip_with_ext_Forall2 {A A' C} (R : A -> A' -> Prop) (f g : A -> A' -> C) xs ys :
  Forall2 R xs ys -> (forall x y, R x y -> f x y = g x y) ->
  zip_with f xs ys = zip_with g xs ys.
Proof.
  intros H Hfg. induction H as [|x y xs ys Hxy _ IH]; [reflexivity|].
  cbn. rewrite (Hfg _ _ Hxy), IH. reflexivity.
Qed.

Lemma Forall2_of_Forall {A A'} (P : A -> Prop) (Q : A' -> Prop) xs ys :
  length xs = length ys -> Forall P xs -> Forall Q ys ->
  Forall2 (fun x y => P x /\ Q y) xs ys.
Proof.
  intros Hlen HP. revert ys Hlen. induction HP as [|x xs Hx _ IH]; intros [|y ys] Hlen HQ;
    try discriminate; constructor.
  - split; [exact Hx | exact (Forall_inv HQ)].
  - apply IH; [injection Hlen as Hlen; exact Hlen | exact (Forall_inv_tail HQ)].
Qed.

(** ** Column sums *)

Lemma map_nth_seq {A} (l : list A) (d : A) :
  map (fun i => nth i l d) (seq 0 (length l)) = l.
Proof.
  induction l as [|x l IH]; [reflexivity|].
  cbn [length seq map nth]. f_equal. rewrite <- seq_shift, map_map. exact IH.
Qed.

Lemma nth_zip_with_add (acc r : list F32.t) d :
  length acc = length r -> (d < length acc)%nat ->
  nth d (zip_with F32.add acc r) F32.zero = F32.add (nth d acc F32.zero) (nth d r F32.zero).
Proof.
  revert r d. induction acc as [|a acc IH]; intros [|b r] d Hlen Hd; try discriminate.
  - cbn in Hd. lia.
  - destruct d as [|d]; [reflexivity|]. cbn. apply IH; [injection Hlen as H; exact H|].
    cbn in Hd. lia.
Qed.

(** Adding up rows of one width is adding up every column. *)
Lemma fold_zip_with_add (rows : Torch.tensor2 F32.t) (acc : list F32.t) :
  Forall (fun r => length r = length acc) rows ->
  fold_left (zip_with F32.add) rows acc
  = map (fun d => fold_left F32.add (map (fun r => nth d r F32.zero) rows)
                            (nth d acc F32.zero))
        (seq 0 (length acc)).
Proof.
  intros H. revert acc H. induction rows as [|r rows IH]; intros acc H.
  - cbn. symmetry. apply map_nth_seq.
  - pose proof (Forall_inv H) as Hr. pose proof (Forall_inv_tail H) as Hrows.
    cbn beta in Hr.
    cbn [fold_left map].
    assert (Hlen : length (zip_with F32.add acc r) = length acc).
    { rewrite length_zip_with. lia. }
    rewrite IH.
    + rewrite Hlen. apply map_ext_in. intros d Hd%in_seq.
      rewrite nth_zip_with_add by lia. reflexivity.
    + rewrite Hlen. exact Hrows.
Qed.

(** ** Mean pooling *)

Lemma float3_unsqueeze_last (mask : Torch.tensor2 Z) :
  Torch.float3 (Torch.unsqueeze_last mask)
  = map (fun mask_row => map (fun m => [F32.of_int m]) mask_row) mask.
Proof.
  unfold Torch.float3, Torch.unsqueeze_last, Torch.float2. rewrite map_map.
  apply map_ext. intros mask_row. rewrite map_map. reflexivity.
Qed.

Lemma mul3_masked (h : Torch.tensor3 F32.t) (mask : Torch.tensor2 Z) :
  Forall2 (fun rows mask_row => length rows = length mask_row) h mask ->
  Torch.mul3 h (Torch.float3 (Torch.unsqueeze_last mask)) = OK (zip_with Torch.masked_rows h mask).
Proof.
  intros H. rewrite float3_unsqueeze_last. unfold Torch.mul3.
  pose proof (Forall2_length _ _ _ H) as Hlen.
  pose proof (broadcast_zip_with _ (fun x _ => x)
                (fun _ mask_row => map (fun m => [F32.of_int m]) mask_row)
                (Torch.broadcast (Torch.broadcast (Torch.lift2 F32.mul)))
                Torch.masked_rows h mask H) as E.
  rewrite zip_with_fst, zip_with_snd_map in E by exact Hlen.
  apply E. clear. intros rows mask_row Hlen.
  pose proof (broadcast_zip_with (fun _ _ => True) (fun x (_ : Z) => x)
                (fun (_ : list F32.t) m => [F32.of_int m])
                (Torch.broadcast (Torch.lift2 F32.mul))
                (fun row m => map (fun v => F32.mul v (F32.of_int m)) row)
                rows mask_row) as E.
  rewrite zip_with_fst, zip_with_snd_map in E by exact Hlen.
  apply E.
  - apply Forall2_true; [intros; exact I | exact Hlen].
  - intros row m _. apply broadcast_scalar.
Qed.

Lemma nth_replicate_zero n d : nth d (replicate n F32.zero) F32.zero = F32.zero.
Proof.
  revert d. induction n as [|n IH]; intros [|d]; try reflexivity. cbn. apply IH.
Qed.

Lemma nth_map_lt {A C} (f : A -> C) l d a c :
  (d < length l)%nat -> nth d (map f l) c = f (nth d l a).
Proof.
  intros H. rewrite (nth_indep _ c (f a)) by (rewrite length_map; exact H).
  apply map_nth.
Qed.

(** The sum over the tokens of the masked rows of one item is, at every
    dimension, the masked sum of the specification. *)
Lemma sum_rows_masked (rows : Torch.tensor2 F32.t) (mask_row : list Z) T D :
  Torch.shape2 T D rows -> length mask_row = T -> (0 < T)%nat ->
  Torch.sum_rows (Torch.masked_rows rows mask_row) = map (Spec.masked_sum rows mask_row) (seq 0 D).
Proof.
  intros [HT HD] Hm Hpos.
  assert (Hrel : Forall2 (fun row (_ : Z) => length row = D) rows mask_row).
  { apply Forall2_same_length_lookup_2; [lia|].
    intros i row m Hrow _. rewrite Forall_forall in HD. apply HD.
    eapply list_elem_of_lookup_2. exact Hrow. }
  assert (Hw : Forall (fun r => length r = D) (Torch.masked_rows rows mask_row)).
  { unfold Torch.masked_rows. clear -Hrel. induction Hrel as [|row m rows mask_row Hr _ IH]; cbn.
    - constructor.
    - constructor; [rewrite length_map; exact Hr | exact IH]. }
  unfold Torch.sum_rows.
  destruct (Torch.masked_rows rows mask_row) as [|r0 rest] eqn:E.
  - destruct rows, mask_row; cbn in *; try discriminate; lia.
  - pose proof (Forall_inv Hw) as Hr0. cbn beta in Hr0.
    rewrite fold_zip_with_add.
    + rewrite length_replicate, Hr0. apply map_ext_in. intros d Hd%in_seq.
      rewrite nth_replicate_zero. unfold Spec.masked_sum. f_equal.
      rewrite <- E. unfold Torch.masked_rows. rewrite map_zip_with.
      apply (zip_with_ext_Forall2 _ _ _ _ _ Hrel). intros row m Hrow.
      apply (nth_map_lt (fun v => F32.mul v (F32.of_int m))). lia.
    + rewrite length_replicate, Hr0. exact Hw.
Qed.

Lemma float2_sum_dim1_keepdim (mask : Torch.tensor2 Z) :
  Torch.float2 (Torch.sum_dim1_keepdim mask)
  = map (fun mask_row => [Spec.mask_count mask_row]) mask.
Proof. unfold Torch.float2, Torch.sum_dim1_keepdim. rewrite map_map. reflexivity. Qed.

Lemma shapes_Forall2 (h : Torch.tensor3 F32.t) (mask : Torch.tensor2 Z) nB T D :
  Torch.shape3 nB T D h -> Torch.shape2 nB T mask ->
  Forall2 (fun rows mask_row => Torch.shape2 T D rows /\ length mask_row = T) h mask.
Proof.
  intros [Hh1 Hh2] [Hm1 Hm2]. apply Forall2_of_Forall; [| exact Hh2 | exact Hm2].
  transitivity nB; [exact Hh1 | symmetry; exact Hm1].
Qed.

(** On a hidden-state tensor of shape (batch, tokens, dim) and a mask of
    shape (batch, tokens), with at least one token position, the method
    'mean' computes the masked mean of the specification. *)
Lemma pooling_mean {B} (self : FlagModel B) h mask nB T D :
  pooling_method self = Py.lit "mean" ->
  Torch.shape3 nB T D h -> Torch.shape2 nB T mask -> (0 < T)%nat ->
  pooling self h mask = OK (PyTensor (Spec.mean_pool D h mask)).
Proof.
  intros Hmean Hh Hm HT. pose proof (shapes_Forall2 _ _ _ _ _ Hh Hm) as H.
  unfold pooling. rewrite Hmean.
  destruct (decide (Py.lit "mean" = Py.lit "cls")) as [E|_]; [discriminate E|].
  destruct (decide (Py.lit "mean" = Py.lit "mean")) as [_|E]; [|contradiction].
  rewrite mul3_masked.
  2:{ eapply Forall2_impl; [exact H|]. intros rows mask_row [[-> _] ->]. reflexivity. }
  cbn [mbind result_bind]. cbv zeta. unfold Torch.sum_dim1. rewrite map_zip_with.
  rewrite float2_sum_dim1_keepdim. unfold Torch.div2.
  pose proof (Forall2_length _ _ _ H) as Hlen.
  pose proof (broadcast_zip_with _
                (fun rows mask_row => Torch.sum_rows (Torch.masked_rows rows mask_row))
                (fun _ mask_row => [Spec.mask_count mask_row])
                (Torch.broadcast (Torch.lift2 F32.div))
                (fun rows mask_row => map (Spec.masked_mean rows mask_row) (seq 0 D))
                h mask H) as E.
  rewrite zip_with_snd_map in E by exact Hlen.
  match goal with |- ?m ≫= _ = _ =>
    replace m with (OK (Spec.mean_pool D h mask)); [reflexivity | symmetry; apply E] end.
  intros rows mask_row [Hrows Hmask]. rewrite broadcast_scalar.
  rewrite (sum_rows_masked _ _ T D Hrows Hmask HT), map_map. reflexivity.
Qed.

Lemma mean_pool_entry D h mask b d rows mask_row :
  h !! b = Some rows -> mask !! b = Some mask_row -> (d < D)%nat ->
  Torch.entry (Spec.mean_pool D h mask) b d = Some (Spec.masked_mean rows mask_row d).
Proof.
  intros Hh Hm Hd. unfold Torch.entry, Spec.mean_pool.
  rewrite lookup_zip_with, Hh. cbn. rewrite Hm. cbn.
  rewrite list_lookup_fmap, lookup_seq_lt by exact Hd. reflexivity.
Qed.

(** *** An item whose only real token is the first one *)

Lemma fold_add_int_zeros n a : fold_left Z.add (replicate n 0) a = a.
Proof. induction n as [|n IH]; [reflexivity|]. cbn. rewrite Z.add_0_r. exact IH. Qed.

Lemma mask_count_single n : Spec.mask_count (1 :: replicate n 0) = F32.one.
Proof. unfold Spec.mask_count. cbn [fold_left]. rewrite fold_add_int_zeros. reflexivity. Qed.

Lemma fold_add_signed_zeros x ps :
  F32.is_finite x = true -> Forall (fun p => exists s, p = S754_zero s) ps ->
  fold_left F32.add ps (F32.unsigned_zero x) = F32.unsigned_zero x.
Proof.
  intros Hx H. induction H as [|p ps [s ->] _ IH]; [reflexivity|].
  cbn [fold_left]. rewrite F32_add_signed_zero by exact Hx. exact IH.
Qed.

Lemma finite_nth row d :
  Forall (fun x => F32.finite x = true) row -> F32.finite (nth d row F32.zero) = true.
Proof.
  intros H. revert d. induction H as [|x row Hx _ IH]; intros [|d]; try reflexivity.
  - exact Hx.
  - apply IH.
Qed.

Lemma finite_is_finite x : F32.finite x = true -> F32.is_finite x = true.
Proof. unfold F32.finite. intros [_ H]%andb_prop. exact H. Qed.

Lemma finite_unsigned_zero x : F32.finite x = true -> F32.finite (F32.unsigned_zero x) = true.
Proof. destruct x; try discriminate; intros H; [reflexivity | exact H]. Qed.

Lemma masked_mean_single row rest d :
  Forall (Forall (fun x => F32.finite x = true)) (row :: rest) ->
  Spec.masked_mean (row :: rest) (1 :: replicate (length rest) 0) d
  = F32.unsigned_zero (nth d row F32.zero).
Proof.
  intros H. pose proof (finite_nth _ d (Forall_inv H)) as Hx.
  unfold Spec.masked_mean. rewrite mask_count_single.
  unfold Spec.masked_sum. cbn [zip_with fold_left].
  change (F32.of_int 1) with F32.one. rewrite (F32_mul_one _ Hx).
  rewrite (F32_add_zero_l _ (finite_is_finite _ Hx)).
  rewrite fold_add_signed_zeros.
  - apply F32_div_one, finite_unsigned_zero, Hx.
  - apply finite_is_finite, Hx.
  - apply Forall_inv_tail in H. clear -H. induction H as [|r rest Hr _ IH]; cbn.
    + constructor.
    + constructor; [|exact IH].
      apply F32_mul_zero_finite, finite_is_finite, finite_nth, Hr.
Qed.

(** *** An item with no real token *)

Lemma add_zero_or_nan x y : F32.zero_or_nan x -> F32.zero_or_nan y -> F32.zero_or_nan (F32.add x y).
Proof. destruct x as [[]| | |], y as [[]| | |]; cbn; tauto. Qed.

Lemma div_zero_or_nan x : F32.zero_or_nan x -> F32.div x F32.zero = F32.nan.
Proof. destruct x; cbn; try tauto; reflexivity. Qed.

Lemma mask_count_zeros mask_row : Forall (eq 0) mask_row -> Spec.mask_count mask_row = F32.zero.
Proof.
  intros H. unfold Spec.mask_count.
  replace (fold_left Z.add mask_row 0) with 0; [reflexivity|].
  induction H as [|m mask_row <- _ IH]; [reflexivity | exact IH].
Qed.

Lemma fold_add_zero_or_nan ps acc :
  F32.zero_or_nan acc -> Forall F32.zero_or_nan ps -> F32.zero_or_nan (fold_left F32.add ps acc).
Proof.
  intros Hacc H. revert acc Hacc. induction H as [|p ps Hp _ IH]; intros acc Hacc.
  - exact Hacc.
  - cbn [fold_left]. apply IH, add_zero_or_nan; assumption.
Qed.

Lemma masked_sum_zeros rows mask_row d :
  Forall (eq 0) mask_row -> F32.zero_or_nan (Spec.masked_sum rows mask_row d).
Proof.
  intros H. unfold Spec.masked_sum. apply fold_add_zero_or_nan; [exact I|].
  revert rows. induction H as [|m mask_row <- _ IH]; intros [|row rows]; cbn;
    try constructor; [apply F32_mul_zero | apply IH].
Qed.

Lemma masked_mean_zeros rows mask_row d :
  Forall (eq 0) mask_row -> Spec.masked_mean rows mask_row d = F32.nan.
Proof.
  intros H. unfold Spec.masked_mean. rewrite (mask_count_zeros _ H).
  apply div_zero_or_nan, masked_sum_zeros, H.
Qed.

Lemma mean_pool_shape D (h : Torch.tensor3 F32.t) (mask : Torch.tensor2 Z) nB :
  length h = nB -> length mask = nB -> Torch.shape2 nB D (Spec.mean_pool D h mask).
Proof.
  intros Hh Hm. unfold Spec.mean_pool. split.
  - rewrite length_zip_with. lia.
  - clear. revert mask. induction h as [|rows h IH]; intros [|mask_row mask]; cbn;
      constructor; [rewrite length_map, length_seq; reflexivity | apply IH].
Qed.

(** C4. With the pooling method 'mean', on hidden states of shape
    (batch, tokens, dim) and a mask of shape (batch, tokens) with at least one
    token position, [pooling] returns a (batch, dim) tensor whose entry for
    item [b] and dimension [d] is the sum over the token positions of hidden
    state times mask flag, divided by the mask sum.  For an item whose mask is
    1 at the first token and 0 elsewhere, with finite hidden states, the entry
    is the first token's hidden state (as a number: [-0.0] is returned as
    [+0.0]).  For an item whose mask is 0 everywhere the divisor is zero, no
    exception is raised and every entry is NaN. *)
Theorem mean_pooling_is_masked_mean {B} (self : FlagModel B)
    (h : Torch.tensor3 F32.t) (mask : Torch.tensor2 Z) (nB T D : nat) :
  pooling_method self = Py.lit "mean" ->
  Torch.shape3 nB T D h -> Torch.shape2 nB T mask -> (0 < T)%nat ->
  exists out,
    pooling self h mask = OK (PyTensor out) /\
    Torch.shape2 nB D out /\
    forall b rows mask_row, h !! b = Some rows -> mask !! b = Some mask_row ->
      (forall d, (d < D)%nat ->
         Torch.entry out b d = Some (Spec.masked_mean rows mask_row d)) /\
      (mask_row = 1 :: replicate (T - 1) 0 ->
       Forall (Forall (fun x => F32.finite x = true)) rows ->
       forall d token1, Torch.entry rows 0 d = Some token1 ->
         Torch.entry out b d = Some (F32.unsigned_zero token1) /\
         F32.eqb (F32.unsigned_zero token1) token1 = true) /\
      (Forall (eq 0) mask_row ->
       Spec.mask_count mask_row = F32.zero /\
       forall d, (d < D)%nat -> Torch.entry out b d = Some F32.nan).
Proof.
  intros Hmean Hh Hm HT. exists (Spec.mean_pool D h mask).
  split; [exact (pooling_mean self h mask nB T D Hmean Hh Hm HT)|].
  split; [apply mean_pool_shape; [apply Hh | apply Hm]|].
  intros b rows mask_row Hb Hmb.
  assert (Hentry : forall d, (d < D)%nat ->
            Torch.entry (Spec.mean_pool D h mask) b d = Some (Spec.masked_mean rows mask_row d)).
  { intros d Hd. exact (mean_pool_entry D h mask b d rows mask_row Hb Hmb Hd). }
  assert (Hrows : Torch.shape2 T D rows).
  { destruct Hh as [_ Hh]. rewrite Forall_forall in Hh. apply Hh.
    eapply list_elem_of_lookup_2. exact Hb. }
  split; [exact Hentry|]. split.
  - intros -> Hfin d token1 Ht.
    destruct rows as [|row rest]; [discriminate|].
    unfold Torch.entry in Ht. cbn in Ht.
    assert (Hd : (d < D)%nat).
    { destruct Hrows as [_ Hw]. apply Forall_inv in Hw. cbn beta in Hw. rewrite <- Hw.
      eapply lookup_lt_Some. exact Ht. }
    assert (Hlen : (T - 1)%nat = length rest).
    { destruct Hrows as [Hl _]. cbn in Hl. lia. }
    rewrite (Hentry d Hd), Hlen, (masked_mean_single row rest d Hfin).
    rewrite (nth_lookup_Some _ _ _ _ Ht).
    split; [reflexivity|]. apply F32_eqb_unsigned_zero, finite_is_finite.
    rewrite <- (nth_lookup_Some _ _ F32.zero _ Ht). apply finite_nth, (Forall_inv Hfin).
  - intros Hz. split; [apply mask_count_zeros, Hz|].
    intros d Hd. rewrite (Hentry d Hd), (masked_mean_zeros _ _ _ Hz). reflexivity.
Qed.

Lemma mean_pooling_is_masked_mean_witness :
  let self := Demo.flag_model 0 "mean" true None in
  let h := [[[F32.of_int 3; F32.of_int (-5)]; [F32.of_int 7; F32.of_int 9]];
            [[F32.of_int 1; F32.of_int 2]; [F32.of_int 4; F32.of_int 8]]] in
  let mask := [[1; 0]; [0; 0]] in
  exists out,
    pooling self h mask = OK (PyTensor out) /\
    Torch.shape2 2 2 out /\
    forall b rows mask_row, h !! b = Some rows -> mask !! b = Some mask_row ->
      (forall d, (d < 2)%nat ->
         Torch.entry out b d = Some (Spec.masked_mean rows mask_row d)) /\
      (mask_row = 1 :: replicate (2 - 1) 0 ->
       Forall (Forall (fun x => F32.finite x = true)) rows ->
       forall d token1, Torch.entry rows 0 d = Some token1 ->
         Torch.entry out b d = Some (F32.unsigned_zero token1) /\
         F32.eqb (F32.unsigned_zero token1) token1 = true) /\
      (Forall (eq 0) mask_row ->
       Spec.mask_count mask_row = F32.zero /\
       forall d, (d < 2)%nat -> Torch.entry out b d = Some F32.nan).
Proof.
  intros self h mask.
  apply (mean_pooling_is_masked_mean self h mask 2 2 2).
  - reflexivity.
  - split; [reflexivity|]. repeat constructor.
  - split; [reflexivity|]. repeat constructor.
  - lia.
Defined.

Example mean_pooling_example :
  pooling (Demo.flag_model 0 "mean" true None)
    [[[F32.of_int 3; F32.of_int (-5)]; [F32.of_int 7; F32.of_int 9]];
     [[F32.of_int 1; F32.of_int 2]; [F32.of_int 4; F32.of_int 8]]]
    [[1; 0]; [0; 0]]
  = OK (PyTensor [[F32.of_int 3; F32.of_int (-5)]; [F32.nan; F32.nan]]).
Proof. vm_compute. reflexivity. Qed.

(** ** Batches *)

Lemma slice_chunk {A} (l : list A) (i : nat) (step : Z) :
  0 < step ->
  Py.slice l (0 + Z.of_nat i * step) (0 + Z.of_nat i * step + step)
  = Spec.chunk (Z.to_nat step) l i.
Proof.
  intros Hstep. unfold Py.slice, Py.slice_bound, Spec.chunk.
  set (n := Z.of_nat (length l)). set (lo := 0 + Z.of_nat i * step).
  assert (Hlo : 0 <= lo) by (unfold lo; nia).
  destruct (Z.ltb_spec lo 0) as [|_]; [lia|].
  destruct (Z.ltb_spec (lo + step) 0) as [|_]; [lia|].
  assert (Hi : (i * Z.to_nat step)%nat = Z.to_nat lo) by (unfold lo; nia).
  rewrite Hi.
  destruct (Z.le_gt_cases n lo) as [Hge|Hlt].
  - rewrite !Z.min_r by lia. rewrite Z.sub_diag.
    rewrite (drop_ge l (Z.to_nat lo)) by lia.
    rewrite drop_ge by lia. destruct (Z.to_nat step); reflexivity.
  - rewrite (Z.min_l lo n) by lia.
    destruct (Z.le_gt_cases (lo + step) n) as [Hle|Hgt].
    + rewrite Z.min_l by lia. f_equal. lia.
    + rewrite Z.min_r by lia.
      rewrite !take_ge; [reflexivity | |]; rewrite length_drop; lia.
Qed.

Lemma concat_chunks {A} (b : nat) (l : list A) (j k : nat) :
  concat (map (Spec.chunk b l) (seq j k)) = take (k * b) (drop (j * b) l).
Proof.
  revert j. induction k as [|k IH]; intros j; [reflexivity|].
  cbn [seq map concat]. rewrite IH. unfold Spec.chunk.
  replace (S j * b)%nat with (j * b + b)%nat by lia.
  rewrite <- drop_drop, take_take_drop. f_equal.
Qed.

Lemma range_starts (n step : Z) :
  0 < n -> 0 < step ->
  Py.range 0 n step
  = OK (map (fun i : nat => 0 + Z.of_nat i * step) (seq 0 (Z.to_nat ((n - 1) / step + 1)))).
Proof.
  intros Hn Hstep. unfold Py.range, Py.range_length.
  destruct (Z.eqb_spec step 0) as [|_]; [lia|].
  destruct (Z.ltb_spec 0 step) as [_|]; [|lia].
  destruct (Z.ltb_spec 0 n) as [_|]; [|lia].
  rewrite Z.sub_0_r. reflexivity.
Qed.

Lemma chunk_count_covers (n step : Z) :
  0 < n -> 0 < step ->
  n <= ((n - 1) / step + 1) * step /\
  forall i, 0 <= i < (n - 1) / step + 1 -> i * step < n.
Proof.
  intros Hn Hstep.
  pose proof (Z.mul_div_le (n - 1) step Hstep).
  pose proof (Z.mul_succ_div_gt (n - 1) step Hstep).
  split; [nia|]. intros i Hi. nia.
Qed.

Lemma select_dim1_0_shape (h : Torch.tensor3 F32.t) nB T D :
  Torch.shape3 nB T D h -> (0 < T)%nat ->
  exists out, Torch.select_dim1_0 h = OK out /\ Torch.shape2 nB D out.
Proof.
  intros [Hlen Hh] HT. subst nB. unfold Torch.select_dim1_0.
  induction Hh as [|rows h [Hrows Hw] _ IH].
  - exists []. split; [reflexivity | split; [reflexivity | constructor]].
  - destruct IH as (out & Hout & Hlen & Hshape).
    destruct rows as [|row rows]; [cbn in Hrows; lia|].
    exists (row :: out). rewrite mapM_cons. cbn [Py.first mbind result_bind].
    rewrite Hout. split; [reflexivity|]. split.
    + cbn. rewrite Hlen. reflexivity.
    + constructor; [exact (Forall_inv Hw) | exact Hshape].
Qed.

Lemma pooling_shape {B} (self : FlagModel B) h mask nB T D :
  supported_pooling self ->
  Torch.shape3 nB T D h -> Torch.shape2 nB T mask -> (0 < T)%nat ->
  exists out, pooling self h mask = OK (PyTensor out) /\ Torch.shape2 nB D out.
Proof.
  intros [Hcls|Hmean] Hh Hm HT.
  - destruct (select_dim1_0_shape h nB T D Hh HT) as (out & Hout & Hshape).
    exists out. split; [|exact Hshape]. unfold pooling. rewrite Hcls.
    destruct (decide (Py.lit "cls" = Py.lit "cls")) as [_|E]; [|contradiction].
    rewrite Hout. reflexivity.
  - exists (Spec.mean_pool D h mask). split.
    + exact (pooling_mean self h mask nB T D Hmean Hh Hm HT).
    + apply mean_pool_shape; [apply Hh | apply Hm].
Qed.

(** One batch: as many rows as strings. *)
Lemma encode_batch_shape {B} (self : FlagModel B) D max_length (batch : list Py.str) :
  supported_pooling self -> batch_contract self D max_length ->
  (normalize_embeddings self = true -> normalize_contract B) ->
  batch <> [] ->
  exists e, encode_batch self (map Text batch) max_length = OK e /\
            Torch.shape2 (length batch) D e.
Proof.
  intros Hp Hc Hn Hne.
  destruct (Hc batch Hne) as (inputs & h & T & Htok & Hmodel & HT & Hh & Hm).
  destruct (pooling_shape self h (attention_mask inputs) _ T D Hp Hh Hm HT)
    as (out & Hout & Hshape).
  unfold encode_batch. rewrite Htok. cbn [mbind result_bind].
  rewrite Hmodel. cbn [mbind result_bind]. rewrite Hout. cbn [mbind result_bind].
  destruct (normalize_embeddings self) eqn:E.
  - exists (F_normalize B out). split; [reflexivity|]. apply (Hn eq_refl), Hshape.
  - exists out. split; [reflexivity | exact Hshape].
Qed.

Lemma mapM_total {A C} (f : A -> result C) (P : A -> C -> Prop) l :
  Forall (fun x => exists y, f x = OK y /\ P x y) l ->
  exists k, mapM f l = OK k /\ Forall2 (fun x y => f x = OK y /\ P x y) l k.
Proof.
  induction 1 as [|x l (y & Hy & HP) _ (k & Hk & IH)].
  - exists []. split; [reflexivity | constructor].
  - exists (y :: k). rewrite mapM_cons, Hy. cbn. rewrite Hk.
    split; [reflexivity|]. constructor; [split; assumption | exact IH].
Qed.

Lemma same_width_rows {A} (arrays : list (list (list A))) D :
  Forall (fun r => length r = D) (concat arrays) -> Torch.same_width arrays = true.
Proof.
  unfold Torch.same_width. destruct (concat arrays) as [|r rs]; [reflexivity|].
  intros H. pose proof (Forall_inv H) as Hr. cbn beta in Hr.
  apply Forall_inv_tail in H. apply forallb_forall. intros r' Hr'.
  rewrite Forall_forall in H. apply Nat.eqb_eq. rewrite Hr. apply H.
  apply list_elem_of_In. exact Hr'.
Qed.

Lemma concat_shapes {A C} (D : nat) (chunks : list (list A)) (arrays : list (list (list C))) :
  Forall2 (fun c e => Torch.shape2 (length c) D e) chunks arrays ->
  Torch.shape2 (length (concat chunks)) D (concat arrays).
Proof.
  induction 1 as [|c e chunks arrays [Hlen Hw] _ [IHlen IHw]].
  - split; [reflexivity | constructor].
  - cbn [concat]. split.
    + rewrite !List.length_app. rewrite Hlen, IHlen. reflexivity.
    + apply Forall_app. split; assumption.
Qed.

(** ** C1: one row per sentence, in order *)

Lemma mapM_ext_all {A C} (f g : A -> result C) l :
  (forall x, f x = g x) -> mapM f l = mapM g l.
Proof.
  intros H. induction l as [|x l IH]; [reflexivity|].
  rewrite !mapM_cons, H, IH. reflexivity.
Qed.

Lemma chunk_map {A C} (f : A -> C) (b : nat) (l : list A) (i : nat) :
  Spec.chunk b (map f l) i = map f (Spec.chunk b l i).
Proof. unfold Spec.chunk. rewrite <- fmap_drop, <- fmap_take. reflexivity. Qed.

Lemma encode_chunks {B} (self : FlagModel B) (sentences : list Py.str)
    (batch_size max_length : Z) :
  sentences <> [] -> 0 < effective_batch_size self batch_size ->
  let b := Z.to_nat (effective_batch_size self batch_size) in
  let k := Z.to_nat ((Z.of_nat (length sentences) - 1) / effective_batch_size self batch_size + 1) in
  let chunks := map (Spec.chunk b sentences) (seq 0 k) in
  concat chunks = sentences /\
  Forall (fun c => (0 < length c <= b)%nat) chunks /\
  encode self (map Text sentences) batch_size max_length
  = (all_embeddings ← mapM (fun c => encode_batch self (map Text c) max_length) chunks;
     Torch.np_concatenate all_embeddings).
Proof.
  intros Hne Hstep b k chunks.
  set (step := effective_batch_size self batch_size) in *.
  set (n := Z.of_nat (length sentences)).
  assert (Hn : 0 < n) by (destruct sentences; [contradiction | cbn in n; lia]).
  destruct (chunk_count_covers n step Hn Hstep) as [Hcover Hstart].
  assert (Hk : Z.of_nat k = (n - 1) / step + 1).
  { unfold k. fold n. pose proof (Z.div_pos (n - 1) step ltac:(lia) Hstep). lia. }
  split; [|split].
  - unfold chunks. rewrite concat_chunks. cbn [Nat.mul drop]. apply take_ge. unfold b. nia.
  - unfold chunks. apply Forall_forall. intros c [i [-> Hi%elem_of_seq]]%list_elem_of_fmap.
    unfold Spec.chunk. rewrite length_take, length_drop.
    assert (Z.of_nat i * step < n) by (apply Hstart; lia).
    unfold b. nia.
  - unfold encode. fold step. rewrite length_map. fold n.
    rewrite (range_starts n step Hn Hstep). cbn [mbind result_bind].
    fold k. unfold chunks. rewrite !mapM_map. f_equal.
    apply mapM_ext_all. intros i. rewrite (slice_chunk _ i step Hstep). fold b.
    rewrite chunk_map. reflexivity.
Qed.

Lemma batches_chunks {A} (l : list A) (step : Z) :
  l <> [] -> 0 < step ->
  map (Spec.chunk (Z.to_nat step) l) (seq 0 (Z.to_nat ((Z.of_nat (length l) - 1) / step + 1)))
  = Spec.batches (Z.to_nat step) l.
Proof.
  intros Hne Hstep. unfold Spec.batches. destruct l as [|x l]; [contradiction|].
  set (l' := x :: l). f_equal. f_equal.
  assert (Hn : 0 < Z.of_nat (length l')) by (cbn; lia).
  pose proof (Z.div_pos (Z.of_nat (length l') - 1) step ltac:(lia) Hstep).
  rewrite Z2Nat.inj_add, Z2Nat.inj_div by lia.
  rewrite Z2Nat.inj_sub, Nat2Z.id by lia.
  change (Z.to_nat 1) with 1%nat. rewrite Nat.add_1_r. reflexivity.
Qed.

Lemma effective_batch_size_pos {B} (self : FlagModel B) batch_size :
  0 < batch_size -> 0 < effective_batch_size self batch_size.
Proof.
  intros H. unfold effective_batch_size.
  destruct (Z.ltb_spec 0 (num_gpus self)); [nia | exact H].
Qed.

(** C1. For a non-empty list of strings and a positive batch size, with the
    pooling method 'cls' or 'mean' and collaborators that meet their contract
    (hidden states of shape (batch, tokens, dim) and a mask of shape
    (batch, tokens) on every non-empty batch; a normalisation that keeps the
    shape), [encode] returns an array of [dim] columns with one row per
    string.  The array is the concatenation, in order, of the embeddings of
    the contiguous chunks of the input, each chunk of the effective batch
    size (the last one possibly shorter) and each embedding with one row per
    string of its chunk. *)
Theorem encode_rows_follow_sentences {B} (self : FlagModel B) (D : nat)
    (sentences : list Py.str) (batch_size max_length : Z) :
  sentences <> [] ->
  0 < batch_size ->
  supported_pooling self ->
  batch_contract self D max_length ->
  (normalize_embeddings self = true -> normalize_contract B) ->
  let chunks := Spec.batches (Z.to_nat (effective_batch_size self batch_size)) sentences in
  exists embeddings,
    concat chunks = sentences /\
    Forall2 (fun c e => encode_batch self (map Text c) max_length = OK e /\
                        Torch.shape2 (length c) D e) chunks embeddings /\
    encode self (map Text sentences) batch_size max_length = OK (concat embeddings) /\
    Torch.shape2 (length sentences) D (concat embeddings).
Proof.
  intros Hne Hstep%(effective_batch_size_pos self) Hp Hc Hn chunks.
  destruct (encode_chunks self sentences batch_size max_length Hne Hstep)
    as (Hcat & Hsize & Henc).
  rewrite (batches_chunks sentences _ Hne Hstep) in Hcat, Hsize, Henc. fold chunks in Hcat, Hsize, Henc.
  destruct (mapM_total (fun c => encode_batch self (map Text c) max_length)
              (fun c e => Torch.shape2 (length c) D e) chunks) as (embeddings & Hmap & Hall).
  { eapply Forall_impl; [exact Hsize|]. intros c Hlen.
    apply encode_batch_shape; try assumption. destruct c; [cbn in Hlen; lia | discriminate]. }
  assert (Hshape : Torch.shape2 (length sentences) D (concat embeddings)).
  { rewrite <- Hcat at 1. apply concat_shapes.
    eapply Forall2_impl; [exact Hall|]. intros c e [_ H]. exact H. }
  exists embeddings. split; [exact Hcat|]. split; [exact Hall|]. split; [|exact Hshape].
  rewrite Henc, Hmap. cbn [mbind result_bind]. unfold Torch.np_concatenate.
  rewrite (same_width_rows embeddings D) by apply Hshape.
  destruct embeddings as [|e embeddings]; [|reflexivity].
  apply Forall2_length in Hall. destruct chunks; [|discriminate].
  cbn in Hcat. congruence.
Qed.

(** When the collaborators work item by item, so does [encode]. *)
Lemma encode_itemwise {B} (self : FlagModel B) (f : Py.str -> list F32.t) (D : nat)
    (sentences : list Py.str) (batch_size max_length : Z) :
  sentences <> [] -> 0 < batch_size ->
  (forall batch, batch <> [] -> encode_batch self (map Text batch) max_length = OK (map f batch)) ->
  (forall s, length (f s) = D) ->
  encode self (map Text sentences) batch_size max_length = OK (map f sentences).
Proof.
  intros Hne Hstep%(effective_batch_size_pos self) Hf HD.
  destruct (encode_chunks self sentences batch_size max_length Hne Hstep)
    as (Hcat & Hsize & Henc).
  rewrite Henc. clear Henc.
  set (chunks := map _ (seq 0 _)) in *.
  rewrite (mapM_OK_map _ (map f)).
  - cbn [mbind result_bind]. unfold Torch.np_concatenate.
    rewrite (same_width_rows _ D).
    + rewrite <- concat_map, Hcat.
      destruct chunks; [cbn in Hcat; congruence | reflexivity].
    + rewrite <- concat_map. apply Forall_forall.
      intros r [s [-> _]]%list_elem_of_fmap. apply HD.
  - eapply Forall_impl; [exact Hsize|]. intros c Hlen. apply Hf.
    destruct c; [cbn in Hlen; lia | discriminate].
Qed.

(** With normalisation enabled, the rows of a batch are the rows that
    [torch.nn.functional.normalize] returns on the pooled tensor; what their
    norm is is that function's contract. *)
Lemma encode_batch_normalized {B} (self : FlagModel B) batch max_length e :
  normalize_embeddings self = true ->
  encode_batch self batch max_length = OK e ->
  exists inputs h pooled,
    Tokenizer_call B (tokenizer self) batch max_length (device_ self) = OK inputs /\
    Model_call B (model self) inputs = OK h /\
    pooling self h (attention_mask inputs) = OK (PyTensor pooled) /\
    e = F_normalize B pooled.
Proof.
  intros Hn. unfold encode_batch. rewrite Hn.
  destruct (Tokenizer_call B _ _ _ _) as [inputs|] eqn:Ht; [|discriminate].
  cbn [mbind result_bind].
  destruct (Model_call B _ _) as [h|] eqn:Hm; [|discriminate].
  cbn [mbind result_bind].
  destruct (pooling self h _) as [[|pooled]|] eqn:Hp; try discriminate.
  cbn. intros [= <-]. exists inputs, h, pooled. repeat split; assumption.
Qed.

(** ** The small backend meets the contract *)

Lemma demo_tokenize_texts (batch : list Py.str) :
  mapM Demo.text_of (map Text batch) = OK batch.
Proof.
  rewrite mapM_map. rewrite (mapM_OK_map _ (fun s => s)).
  - rewrite map_id. reflexivity.
  - apply Forall_forall. reflexivity.
Qed.

Lemma demo_batch_contract gpus pooling_method normalize instruction max_length :
  batch_contract (Demo.flag_model gpus pooling_method normalize instruction) 2 max_length.
Proof.
  intros batch _. cbn [Tokenizer_call Model_call Demo.backend Demo.flag_model tokenizer model device_].
  unfold Demo.tokenize. rewrite demo_tokenize_texts. cbn [mbind result_bind].
  set (longest := max_list (map length batch)).
  eexists. exists (Demo.hidden
    {| input_ids := map (fun s => (101 :: map Z.of_N s) ++ replicate (longest - length s)%nat 0) batch;
       attention_mask := map (fun s : Py.str => replicate (S (length s)) 1
                                   ++ replicate (longest - length s)%nat 0) batch |}), (S longest).
  assert (Hle : forall s, s ∈ batch -> (length s <= longest)%nat).
  { intros s Hs. apply max_list_elem_of_le. apply list_elem_of_fmap. exists s. split; [reflexivity | exact Hs]. }
  split; [reflexivity|]. split; [reflexivity|]. split; [lia|]. split.
  - unfold Demo.hidden. cbn [input_ids]. split; [rewrite !length_map; reflexivity|].
    rewrite map_map. apply Forall_fmap, Forall_forall. intros s Hs. cbn beta. split.
    + rewrite length_map, List.length_app, length_replicate. cbn [length]. rewrite length_map.
      specialize (Hle s Hs). lia.
    + apply Forall_fmap, Forall_forall. reflexivity.
  - cbn [attention_mask]. split; [rewrite length_map; reflexivity|].
    apply Forall_fmap, Forall_forall. intros s Hs. unfold compose.
    rewrite List.length_app, !length_replicate. specialize (Hle s Hs). lia.
Qed.

Lemma demo_normalize_contract gpus : normalize_contract (Demo.backend gpus).
Proof.
  intros x n D [Hlen Hw]. cbn [F_normalize Demo.backend]. split.
  - rewrite length_map. exact Hlen.
  - apply Forall_fmap. eapply Forall_impl; [exact Hw|]. intros r Hr. unfold compose.
    unfold Demo.l2_normalize. rewrite length_map. exact Hr.
Qed.

Lemma encode_rows_follow_sentences_witness :
  let self := Demo.flag_model 1 "mean" true None in
  let sentences := [Py.lit "ab"; Py.lit "c"; Py.lit ""] in
  exists embeddings,
    concat [[Py.lit "ab"; Py.lit "c"]; [Py.lit ""]] = sentences /\
    Forall2 (fun c e => encode_batch self (map Text c) 512 = OK e /\
                        Torch.shape2 (length c) 2 e)
            [[Py.lit "ab"; Py.lit "c"]; [Py.lit ""]] embeddings /\
    encode self (map Text sentences) 2 512 = OK (concat embeddings) /\
    Torch.shape2 3 2 (concat embeddings).
Proof.
  intros self sentences.
  apply (encode_rows_follow_sentences self 2 sentences 2 512).
  - discriminate.
  - lia.
  - right. reflexivity.
  - apply demo_batch_contract.
  - intros _. apply demo_normalize_contract.
Defined.

(** * Further properties of the class *)

(** ** Construction *)

(** What [__init__] does once the tokenizer and the model are loaded and
    the model is on its device. *)
Lemma init_after_loading (B : Backend) name pooling_method normalize instruction t m m' :
  AutoTokenizer_from_pretrained B name = OK t ->
  AutoModel_from_pretrained B name = OK m ->
  Model_to B m (if cuda_is_available B then cuda else cpu) = OK m' ->
  __init__ B name pooling_method normalize instruction
  = if 1 <? cuda_device_count B then Err (AttributeError "batch_size")
    else OK (initialised B pooling_method normalize instruction t m').
Proof.
  intros Ht Hm Hto. unfold __init__, instance_of. rewrite Ht, Hm. run_init.
  rewrite Hto. run_init. destruct (1 <? cuda_device_count B); run_init; reflexivity.
Qed.

Lemma init_load_errors (B : Backend) name pooling_method normalize instruction :
  (forall e, AutoTokenizer_from_pretrained B name = Err e ->
     __init__ B name pooling_method normalize instruction = Err e) /\
  (forall t e, AutoTokenizer_from_pretrained B name = OK t ->
     AutoModel_from_pretrained B name = Err e ->
     __init__ B name pooling_method normalize instruction = Err e) /\
  (forall t m e, AutoTokenizer_from_pretrained B name = OK t ->
     AutoModel_from_pretrained B name = OK m ->
     Model_to B m (if cuda_is_available B then cuda else cpu) = Err e ->
     __init__ B name pooling_method normalize instruction = Err e).
Proof.
  split; [|split].
  - intros e Ht. unfold __init__. rewrite Ht. reflexivity.
  - intros t e Ht Hm. unfold __init__. rewrite Ht, Hm. reflexivity.
  - intros t m e Ht Hm Hto. unfold __init__. rewrite Ht, Hm. run_init.
    rewrite Hto. reflexivity.
Qed.


(** A successful construction: at most one device, and the instance holds
    the arguments. *)
Lemma init_OK_inv (B : Backend) name pooling_method normalize instruction self :
  __init__ B name pooling_method normalize instruction = OK self ->
  cuda_device_count B <= 1 /\
  exists t m m',
    AutoTokenizer_from_pretrained B name = OK t /\
    AutoModel_from_pretrained B name = OK m /\
    Model_to B m (if cuda_is_available B then cuda else cpu) = OK m' /\
    self = initialised B pooling_method normalize instruction t m'.
Proof.
  destruct (init_load_errors B name pooling_method normalize instruction) as (E1 & E2 & E3).
  intros H.
  destruct (AutoTokenizer_from_pretrained B name) as [t|e] eqn:Ht;
    [|rewrite (E1 e eq_refl) in H; discriminate].
  destruct (AutoModel_from_pretrained B name) as [m|e] eqn:Hm;
    [|rewrite (E2 t e eq_refl eq_refl) in H; discriminate].
  destruct (Model_to B m (if cuda_is_available B then cuda else cpu)) as [m'|e] eqn:Hto;
    [|rewrite (E3 t m e eq_refl eq_refl Hto) in H; discriminate].
  rewrite (init_after_loading B name _ _ _ t m m' Ht Hm Hto) in H.
  destruct (Z.ltb_spec 1 (cuda_device_count B)); [discriminate|].
  injection H as <-. split; [lia|]. exists t, m, m'.
  repeat split; first [assumption | reflexivity].
Qed.

(** X1. [__init__] succeeds exactly when at most one device is reported, the
    tokenizer and the model load and the model moves to its device; the
    instance then holds the loaded tokenizer, the moved model (not wrapped in
    [DataParallel]), the arguments as given, the device ([cuda] when
    available) and the device count. *)
Theorem init_succeeds_iff (B : Backend) (name : option Py.str) (pooling_method : Py.str)
    (normalize : bool) (instruction : option Py.str) (self : FlagModel B) :
  __init__ B name pooling_method normalize instruction = OK self <->
  cuda_device_count B <= 1 /\
  exists t m m',
    AutoTokenizer_from_pretrained B name = OK t /\
    AutoModel_from_pretrained B name = OK m /\
    Model_to B m (if cuda_is_available B then cuda else cpu) = OK m' /\
    self = initialised B pooling_method normalize instruction t m'.
Proof.
  split; [apply init_OK_inv|].
  intros (Hn & t & m & m' & Ht & Hm & Hto & ->).
  rewrite (init_after_loading B name _ _ _ t m m' Ht Hm Hto).
  destruct (Z.ltb_spec 1 (cuda_device_count B)); [lia | reflexivity].
Qed.

(** X2. [__init__] raises exactly these errors: the error of the tokenizer
    loader, of the model loader or of the move to the device, unchanged and
    in this order of precedence, and otherwise [AttributeError] for
    [batch_size] when more than one device is reported. *)
Theorem init_raises_iff (B : Backend) (name : option Py.str) (pooling_method : Py.str)
    (normalize : bool) (instruction : option Py.str) (e : exn) :
  __init__ B name pooling_method normalize instruction = Err e <->
  AutoTokenizer_from_pretrained B name = Err e \/
  (exists t, AutoTokenizer_from_pretrained B name = OK t /\
     (AutoModel_from_pretrained B name = Err e \/
      exists m, AutoModel_from_pretrained B name = OK m /\
        (Model_to B m (if cuda_is_available B then cuda else cpu) = Err e \/
         exists m', Model_to B m (if cuda_is_available B then cuda else cpu) = OK m' /\
           1 < cuda_device_count B /\ e = AttributeError "batch_size"))).
Proof.
  destruct (init_load_errors B name pooling_method normalize instruction) as (E1 & E2 & E3).
  destruct (AutoTokenizer_from_pretrained B name) as [t|e1] eqn:Ht.
  2:{ rewrite (E1 e1 eq_refl). split.
      - intros [= ->]. left. reflexivity.
      - intros [[= ->]|(t & [=] & _)]. reflexivity. }
  destruct (AutoModel_from_pretrained B name) as [m|e2] eqn:Hm.
  2:{ rewrite (E2 t e2 eq_refl eq_refl). split.
      - intros [= ->]. right. exists t. split; [reflexivity|]. left. reflexivity.
      - intros [[=]|(t' & _ & [[= ->]|(m & [=] & _)])]. reflexivity. }
  destruct (Model_to B m (if cuda_is_available B then cuda else cpu)) as [m'|e3] eqn:Hto.
  2:{ rewrite (E3 t m e3 eq_refl eq_refl Hto). split.
      - intros [= ->]. right. exists t. split; [reflexivity|]. right. exists m.
        split; [reflexivity|]. left. exact Hto.
      - intros [[=]|(t' & _ & [[=]|(m0 & [= <-] & [H|(m' & H & _)])])];
          rewrite Hto in H; [injection H as ->; reflexivity | discriminate]. }
  rewrite (init_after_loading B name _ _ _ t m m' Ht Hm Hto).
  destruct (Z.ltb_spec 1 (cuda_device_count B)) as [Hn|Hn]; split.
  - intros [= <-]. right. exists t. split; [reflexivity|]. right. exists m.
    split; [reflexivity|]. right. exists m'. repeat split; [exact Hto | exact Hn].
  - intros [[=]|(t' & _ & [[=]|(m0 & [= <-] & [H|(m1 & _ & _ & ->)])])];
      [rewrite Hto in H; discriminate | reflexivity].
  - discriminate.
  - intros [[=]|(t' & _ & [[=]|(m0 & [= <-] & [H|(m1 & _ & Hgt & _)])])];
      [rewrite Hto in H; discriminate | lia].
Qed.

(** X3. On an instance that [__init__] returned, the batch size [encode]
    runs with is the requested one: the scaling by the device count has no
    effect, since construction succeeds only with at most one device. *)
Theorem constructed_instance_keeps_batch_size (B : Backend) (name : option Py.str)
    (pooling_method : Py.str) (normalize : bool) (instruction : option Py.str)
    (self : FlagModel B) (batch_size : Z) :
  __init__ B name pooling_method normalize instruction = OK self ->
  effective_batch_size self batch_size = batch_size.
Proof.
  intros (Hn & t & m & m' & _ & _ & _ & ->)%init_OK_inv.
  unfold effective_batch_size, initialised. cbn [num_gpus].
  destruct (Z.ltb_spec 0 (cuda_device_count B)); [|reflexivity].
  replace (cuda_device_count B) with 1 by lia. lia.
Qed.

Lemma constructed_instance_keeps_batch_size_witness :
  effective_batch_size (Demo.flag_model 1 "cls" true None) 256 = 256.
Proof.
  apply (constructed_instance_keeps_batch_size (Demo.backend 1) (Some (Py.lit "bge"))
           (Py.lit "cls") true None (Demo.flag_model 1 "cls" true None) 256).
  reflexivity.
Defined.

(** ** More on [encode] *)

(** [encode] on any non-empty list (plain strings or not) runs the loop body
    on the chunks of the list, in order, and concatenates. *)
Lemma encode_batches {B} (self : FlagModel B) (sentences : list item)
    (batch_size max_length : Z) :
  sentences <> [] -> 0 < batch_size ->
  encode self sentences batch_size max_length
  = (all_embeddings ←
       mapM (fun c => encode_batch self c max_length)
            (Spec.batches (Z.to_nat (effective_batch_size self batch_size)) sentences);
     Torch.np_concatenate all_embeddings).
Proof.
  intros Hne Hstep%(effective_batch_size_pos self).
  set (step := effective_batch_size self batch_size) in *.
  assert (Hn : 0 < Z.of_nat (length sentences)).
  { destruct sentences; [contradiction | cbn [length]; lia]. }
  unfold encode. fold step. rewrite (range_starts _ step Hn Hstep). cbn [mbind result_bind].
  rewrite <- (batches_chunks sentences step Hne Hstep). rewrite !mapM_map. f_equal.
  apply mapM_ext_all. intros i. rewrite (slice_chunk _ i step Hstep). reflexivity.
Qed.

Lemma batches_cons {A} (b : nat) (x : A) (l : list A) :
  exists rest, Spec.batches b (x :: l) = take b (x :: l) :: rest.
Proof. unfold Spec.batches. cbn [seq map]. eexists. reflexivity. Qed.

Lemma batches_lookup {A} (b : nat) (l : list A) (i : nat) (c : list A) :
  (0 < b)%nat -> Spec.batches b l !! i = Some c ->
  c = take b (drop (i * b) l) /\ (i * b < length l)%nat.
Proof.
  intros Hb. unfold Spec.batches. destruct l as [|x l]; [discriminate|].
  set (l' := x :: l). rewrite list_lookup_fmap.
  destruct (seq 0 (S ((length l' - 1) / b)) !! i) as [j|] eqn:E; [|discriminate].
  apply lookup_seq in E as [-> Hi]. cbn. intros [= <-]. split; [reflexivity|].
  assert (Hi' : (i <= (length l' - 1) / b)%nat) by (cbn [Nat.add] in Hi; lia).
  pose proof (Nat.Div0.mul_div_le (length l' - 1) b) as Hd.
  assert (Hl : (0 < length l')%nat) by (unfold l'; cbn; lia).
  apply (Nat.mul_le_mono_r _ _ b) in Hi'. rewrite Nat.mul_comm in Hd.
  eapply Nat.le_lt_trans; [exact Hi'|]. eapply Nat.le_lt_trans; [exact Hd|].
  unfold l'. cbn [length]. lia.
Qed.

Lemma batches_length {A} (b : nat) (l : list A) :
  l <> [] -> length (Spec.batches b l) = S ((length l - 1) / b).
Proof.
  intros H. unfold Spec.batches. destruct l; [contradiction|].
  rewrite length_map, length_seq. reflexivity.
Qed.

Lemma batches_concat {A} (b : nat) (l : list A) :
  (0 < b)%nat -> concat (Spec.batches b l) = l.
Proof.
  intros Hb. unfold Spec.batches. destruct l as [|x l]; [reflexivity|].
  set (l' := x :: l). rewrite concat_chunks. cbn [Nat.mul drop]. apply take_ge.
  pose proof (Nat.div_mod_eq (length l' - 1) b) as E.
  pose proof (Nat.mod_upper_bound (length l' - 1) b ltac:(lia)) as Hm.
  rewrite (Nat.mul_comm b) in E. cbn [Nat.mul]. lia.
Qed.

(** X7. On a non-empty list and with a positive batch size, [encode] runs
    the loop body on the chunks of the list in order and concatenates.  The
    chunks add up to the list; with [b] the effective batch size and [n] the
    number of sentences there are [(n - 1) / b + 1] of them, chunk [i] holds
    the sentences from position [i * b] on, [b] of them or what is left, and
    no chunk is empty. *)
Theorem encode_batches_of_batch_size {B} (self : FlagModel B) (sentences : list item)
    (batch_size max_length : Z) :
  sentences <> [] -> 0 < batch_size ->
  let b := Z.to_nat (effective_batch_size self batch_size) in
  let n := length sentences in
  encode self sentences batch_size max_length
  = (all_embeddings ← mapM (fun c => encode_batch self c max_length) (Spec.batches b sentences);
     Torch.np_concatenate all_embeddings) /\
  concat (Spec.batches b sentences) = sentences /\
  length (Spec.batches b sentences) = S ((n - 1) / b) /\
  forall i c, Spec.batches b sentences !! i = Some c ->
    c = take b (drop (i * b) sentences) /\ length c = Nat.min b (n - i * b) /\ (0 < length c)%nat.
Proof.
  intros Hne Hbs b n.
  assert (Hb : (0 < b)%nat) by (pose proof (effective_batch_size_pos self _ Hbs); unfold b; lia).
  split; [exact (encode_batches self sentences batch_size max_length Hne Hbs)|].
  split; [exact (batches_concat b sentences Hb)|].
  split; [exact (batches_length b sentences Hne)|].
  intros i c Hc. destruct (batches_lookup b sentences i c Hb Hc) as [-> Hi].
  split; [reflexivity|]. rewrite length_take, length_drop. fold n. lia.
Qed.

Lemma encode_batches_of_batch_size_witness :
  let self := Demo.flag_model 0 "cls" true None in
  let sentences := [Text (Py.lit "a"); Text (Py.lit "b"); Text (Py.lit "c")] in
  let b := Z.to_nat (effective_batch_size self 2) in
  let n := length sentences in
  encode self sentences 2 512
  = (all_embeddings ← mapM (fun c => encode_batch self c 512) (Spec.batches b sentences);
     Torch.np_concatenate all_embeddings) /\
  concat (Spec.batches b sentences) = sentences /\
  length (Spec.batches b sentences) = S ((n - 1) / b) /\
  forall i c, Spec.batches b sentences !! i = Some c ->
    c = take b (drop (i * b) sentences) /\ length c = Nat.min b (n - i * b) /\ (0 < length c)%nat.
Proof.
  intros self sentences.
  apply (encode_batches_of_batch_size self sentences 2 512); [discriminate | lia].
Defined.

(** X4. With a batch size of zero or less [encode] raises [ValueError],
    whatever the sentences: [range] rejects the step 0, and a negative step
    runs no batch, so that [np.concatenate] gets no array. *)
Theorem encode_nonpositive_batch_size {B} (self : FlagModel B) (sentences : list item)
    (batch_size max_length : Z) :
  batch_size <= 0 ->
  encode self sentences batch_size max_length = Err ValueError.
Proof.
  intros Hbs. unfold encode.
  assert (Hstep : effective_batch_size self batch_size <= 0).
  { unfold effective_batch_size. destruct (Z.ltb_spec 0 (num_gpus self)); nia. }
  set (step := effective_batch_size self batch_size) in *.
  unfold Py.range. destruct (Z.eqb_spec step 0) as [|Hne]; [reflexivity|].
  unfold Py.range_length.
  destruct (Z.ltb_spec 0 step) as [|_]; [lia|].
  destruct (Z.ltb_spec (Z.of_nat (length sentences)) 0) as [|_]; [lia|].
  reflexivity.
Qed.

Lemma encode_nonpositive_batch_size_witness :
  encode (Demo.flag_model 0 "cls" true None) [Text (Py.lit "a")] 0 512 = Err ValueError.
Proof. apply encode_nonpositive_batch_size. lia. Defined.

(** X5. The error of the first batch that fails is the error of [encode]:
    when the batches before it succeed and it raises [e], whether in the
    tokenizer, the encoder, pooling or after, [encode] raises [e]. *)
Theorem encode_raises_first_batch_error {B} (self : FlagModel B) (sentences : list item)
    (batch_size max_length : Z) (done : list (list item)) (c : list item)
    (rest : list (list item)) (e : exn) :
  sentences <> [] -> 0 < batch_size ->
  Spec.batches (Z.to_nat (effective_batch_size self batch_size)) sentences = done ++ c :: rest ->
  Forall (fun c' => is_OK (encode_batch self c' max_length) = true) done ->
  encode_batch self c max_length = Err e ->
  encode self sentences batch_size max_length = Err e.
Proof.
  intros Hne Hbs Hsplit Hdone Hc.
  rewrite (encode_batches self sentences batch_size max_length Hne Hbs), Hsplit.
  rewrite (mapM_first_Err _ done c rest e Hdone Hc). reflexivity.
Qed.

Lemma encode_raises_first_batch_error_witness :
  encode (Demo.flag_model 0 "cls" true None)
    [Text (Py.lit "a"); Text (Py.lit "b"); Text (Py.lit "c"); Doc ∅; Text (Py.lit "d")] 2 512
  = Err ValueError.
Proof.
  apply (encode_raises_first_batch_error (Demo.flag_model 0 "cls" true None) _ 2 512
           [[Text (Py.lit "a"); Text (Py.lit "b")]] [Text (Py.lit "c"); Doc ∅]
           [[Text (Py.lit "d")]] ValueError).
  - discriminate.
  - lia.
  - reflexivity.
  - repeat constructor.
  - reflexivity.
Defined.

(** X6. With a pooling method other than 'cls' and 'mean', [encode] on a
    non-empty list raises [AttributeError] as soon as the tokenizer and the
    encoder have succeeded on the first batch: for [norm] when normalisation
    is enabled, for [cpu] otherwise. *)
Theorem encode_unsupported_pooling_raises {B} (self : FlagModel B) (sentences : list item)
    (batch_size max_length : Z) inputs h :
  sentences <> [] -> 0 < batch_size ->
  pooling_method self <> Py.lit "cls" -> pooling_method self <> Py.lit "mean" ->
  Tokenizer_call B (tokenizer self)
    (take (Z.to_nat (effective_batch_size self batch_size)) sentences)
    max_length (device_ self) = OK inputs ->
  Model_call B (model self) inputs = OK h ->
  encode self sentences batch_size max_length
  = Err (AttributeError (if normalize_embeddings self then "norm" else "cpu")).
Proof.
  intros Hne Hbs H1 H2 Htok Hmodel.
  rewrite (encode_batches self sentences batch_size max_length Hne Hbs).
  destruct sentences as [|x l]; [contradiction|].
  destruct (batches_cons (Z.to_nat (effective_batch_size self batch_size)) x l) as [rest ->].
  assert (Hp : pooling self h (attention_mask inputs) = OK PyNone).
  { unfold pooling.
    destruct (decide (pooling_method self = Py.lit "cls")); [contradiction|].
    destruct (decide (pooling_method self = Py.lit "mean")); [contradiction|]. reflexivity. }
  assert (Hb : encode_batch self
                 (take (Z.to_nat (effective_batch_size self batch_size)) (x :: l)) max_length
               = Err (AttributeError (if normalize_embeddings self then "norm" else "cpu"))).
  { unfold encode_batch. rewrite Htok. cbn [mbind result_bind].
    rewrite Hmodel. cbn [mbind result_bind]. rewrite Hp. cbn [mbind result_bind].
    destruct (normalize_embeddings self); reflexivity. }
  rewrite mapM_cons. cbn beta. rewrite Hb. reflexivity.
Qed.

Lemma encode_unsupported_pooling_raises_witness :
  encode (Demo.flag_model 0 "max" true None) [Text (Py.lit "a"); Text (Py.lit "bc")] 256 512
  = Err (AttributeError "norm").
Proof.
  eapply (encode_unsupported_pooling_raises (Demo.flag_model 0 "max" true None)
            [Text (Py.lit "a"); Text (Py.lit "bc")] 256 512).
  - discriminate.
  - lia.
  - discriminate.
  - discriminate.
  - reflexivity.
  - reflexivity.
Defined.

(** ** CLS pooling *)

Lemma select_dim1_0_first {A} (h : list (list (list A))) :
  Forall (fun rows => rows <> []) h ->
  exists out, Torch.select_dim1_0 h = OK out /\
              Forall2 (fun rows row => rows !! 0%nat = Some row) h out.
Proof.
  unfold Torch.select_dim1_0. induction 1 as [|rows h Hrows _ (out & Hout & IH)].
  - exists []. split; [reflexivity | constructor].
  - destruct rows as [|row rows]; [contradiction|].
    exists (row :: out). rewrite mapM_cons. cbn [Py.first mbind result_bind]. rewrite Hout.
    split; [reflexivity|]. constructor; [reflexivity | exact IH].
Qed.

(** X9. With the pooling method 'cls' and at least one token position per
    item, [pooling] returns one row per item, the hidden state of its first
    token; the mask is not read (it may have any shape). *)
Theorem cls_pooling_takes_first_token {B} (self : FlagModel B)
    (h : Torch.tensor3 F32.t) (mask : Torch.tensor2 Z) :
  pooling_method self = Py.lit "cls" ->
  Forall (fun rows => rows <> []) h ->
  exists out,
    pooling self h mask = OK (PyTensor out) /\
    length out = length h /\
    forall b rows, h !! b = Some rows -> out !! b = rows !! 0%nat.
Proof.
  intros Hcls Hh. destruct (select_dim1_0_first h Hh) as (out & Hout & Hall).
  exists out. split; [|split].
  - unfold pooling. rewrite Hcls.
    destruct (decide (Py.lit "cls" = Py.lit "cls")) as [_|E]; [|contradiction].
    rewrite Hout. reflexivity.
  - symmetry. exact (Forall2_length _ _ _ Hall).
  - intros b rows Hb. destruct (Forall2_lookup_l _ _ _ _ _ Hall Hb) as (row & -> & Hrow).
    symmetry. exact Hrow.
Qed.

Lemma cls_pooling_takes_first_token_witness :
  exists out,
    pooling (Demo.flag_model 0 "cls" true None)
      [[[F32.of_int 3; F32.of_int 4]; [F32.of_int 5; F32.of_int 6]];
       [[F32.of_int 7; F32.of_int 8]; [F32.of_int 9; F32.of_int 1]]]
      [[1; 0]] = OK (PyTensor out) /\
    length out = 2%nat /\
    forall b rows,
      [[[F32.of_int 3; F32.of_int 4]; [F32.of_int 5; F32.of_int 6]];
       [[F32.of_int 7; F32.of_int 8]; [F32.of_int 9; F32.of_int 1]]] !! b = Some rows ->
      out !! b = rows !! 0%nat.
Proof.
  apply (cls_pooling_takes_first_token (Demo.flag_model 0 "cls" true None)).
  - reflexivity.
  - repeat constructor; discriminate.
Defined.

(** ** float32: sums never produce [-0.0] *)

Lemma fexp_ge_emin e : -149 <= fexp 24 128 e.
Proof. unfold fexp, emin. lia. Qed.

Lemma Zdigits2_pos z : 0 <= z -> (0 < Zdigits2 z <-> 0 < z).
Proof. destruct z; cbn; lia. Qed.

Lemma Zdigits2_nonneg z : 0 <= Zdigits2 z.
Proof. destruct z; cbn; lia. Qed.

Lemma shr_1_digits mrs :
  0 <= shr_m mrs ->
  0 <= shr_m (shr_1 mrs) /\
  Zdigits2 (shr_m (shr_1 mrs)) = Z.max 0 (Zdigits2 (shr_m mrs) - 1).
Proof.
  destruct mrs as [m r s]. cbn [shr_m]. intros Hm.
  destruct m as [|[p|p|]|p]; cbn; try lia.
Qed.

Lemma iter_shr_1_digits p : forall mrs,
  0 <= shr_m mrs ->
  0 <= shr_m (SpecFloat.iter_pos shr_1 p mrs) /\
  Zdigits2 (shr_m (SpecFloat.iter_pos shr_1 p mrs)) = Z.max 0 (Zdigits2 (shr_m mrs) - Zpos p).
Proof.
  induction p as [p IH|p IH|]; intros mrs Hm; cbn [SpecFloat.iter_pos].
  - destruct (shr_1_digits mrs Hm) as [H1 E1].
    destruct (IH _ H1) as [H2 E2]. destruct (IH _ H2) as [H3 E3].
    split; [exact H3|]. rewrite E3, E2, E1. lia.
  - destruct (IH _ Hm) as [H2 E2]. destruct (IH _ H2) as [H3 E3].
    split; [exact H3|]. rewrite E3, E2. lia.
  - destruct (shr_1_digits mrs Hm) as [H1 E1]. split; [exact H1|]. rewrite E1. lia.
Qed.

Lemma shr_m_of_loc m l : shr_m (shr_record_of_loc m l) = m.
Proof. destruct l as [|[]]; reflexivity. Qed.

(** After the shift to the canonical exponent the exponent is at least the
    minimal one; a positive mantissa with such an exponent stays positive. *)
Lemma shr_fexp_exp m e l : -149 <= snd (shr_fexp 24 128 m e l).
Proof.
  unfold shr_fexp, shr. pose proof (fexp_ge_emin (Zdigits2 m + e)).
  destruct (fexp 24 128 (Zdigits2 m + e) - e) eqn:E; cbn [snd]; lia.
Qed.

Lemma shr_fexp_pos m e l :
  0 < m -> -149 <= e -> 0 < shr_m (fst (shr_fexp 24 128 m e l)).
Proof.
  intros Hm He. unfold shr_fexp, shr.
  destruct (fexp 24 128 (Zdigits2 m + e) - e) as [|p|p] eqn:E; cbn [fst];
    rewrite ?shr_m_of_loc; try exact Hm.
  destruct (iter_shr_1_digits p (shr_record_of_loc m l)) as [H1 E1];
    [rewrite shr_m_of_loc; lia|].
  rewrite shr_m_of_loc in E1. apply Zdigits2_pos; [exact H1|]. rewrite E1.
  unfold fexp, emin in E. lia.
Qed.

Lemma round_nearest_even_pos m l : 0 < m -> 0 < round_nearest_even m l.
Proof. intros H. destruct l as [|[]]; cbn; try lia. destruct (Z.even m); lia. Qed.

Lemma binary_round_aux_exp s m e l : exp_ok (binary_round_aux 24 128 s m e l).
Proof.
  unfold binary_round_aux.
  destruct (shr_fexp 24 128 m e l) as [mrs' e'].
  pose proof (shr_fexp_exp (round_nearest_even (shr_m mrs') (loc_of_shr_record mrs')) e' loc_Exact) as H.
  destruct (shr_fexp 24 128 _ e' loc_Exact) as [mrs'' e'']. cbn [snd] in H.
  destruct (shr_m mrs''); try exact I. destruct (e'' <=? 128 - 24); [exact H | exact I].
Qed.

Lemma binary_round_aux_nonzero s m e l s' :
  0 < m -> -149 <= e -> binary_round_aux 24 128 s m e l <> S754_zero s'.
Proof.
  intros Hm He. unfold binary_round_aux.
  pose proof (shr_fexp_pos m e l Hm He) as H1. pose proof (shr_fexp_exp m e l) as E1.
  destruct (shr_fexp 24 128 m e l) as [mrs' e']. cbn [fst snd] in H1, E1.
  pose proof (shr_fexp_pos _ e' loc_Exact
                (round_nearest_even_pos _ (loc_of_shr_record mrs') H1) E1) as H2.
  destruct (shr_fexp 24 128 _ e' loc_Exact) as [mrs'' e'']. cbn [fst] in H2.
  destruct (shr_m mrs''); try lia. destruct (e'' <=? 128 - 24); discriminate.
Qed.

Lemma binary_round_exp s m e : exp_ok (binary_round 24 128 s m e).
Proof.
  unfold binary_round. destruct (shl_align _ _ _). apply binary_round_aux_exp.
Qed.

Lemma binary_round_nonzero s m e s' :
  -149 <= e -> binary_round 24 128 s m e <> S754_zero s'.
Proof.
  intros He. unfold binary_round, shl_align.
  pose proof (fexp_ge_emin (Z.pos (digits2_pos m) + e)).
  destruct (fexp 24 128 (Z.pos (digits2_pos m) + e) - e) eqn:E;
    apply binary_round_aux_nonzero; lia.
Qed.

Lemma F32_mul_exp x y : exp_ok (F32.mul x y).
Proof.
  destruct x as [sx|sx| |sx mx ex], y as [sy|sy| |sy my ey]; try exact I.
  apply binary_round_aux_exp.
Qed.

Lemma F32_add_exp x y : exp_ok x -> exp_ok y -> exp_ok (F32.add x y).
Proof.
  destruct x as [sx|sx| |sx mx ex], y as [sy|sy| |sy my ey]; intros Hx Hy;
    try exact I; try assumption.
  - destruct sx, sy; exact I.
  - destruct sx, sy; exact I.
  - unfold F32.add, SFadd, binary_normalize.
    destruct (_ + _); [exact I | apply binary_round_exp | apply binary_round_exp].
Qed.

(** A sum is [-0.0] only if it starts from [-0.0]. *)
Lemma F32_add_not_neg_zero x y :
  exp_ok x -> exp_ok y -> x <> S754_zero true -> F32.add x y <> S754_zero true.
Proof.
  destruct x as [sx|sx| |sx mx ex], y as [sy|sy| |sy my ey]; intros Hx Hy Hne;
    try discriminate.
  - destruct sx, sy; try discriminate. contradiction.
  - destruct sx, sy; discriminate.
  - unfold F32.add, SFadd, binary_normalize. cbn in Hx, Hy.
    destruct (_ + _); [discriminate | |]; apply binary_round_nonzero; lia.
Qed.

Lemma F32_add_signed_zero_r x s : x <> S754_zero true -> F32.add x (S754_zero s) = x.
Proof. destruct x as [[]| | |], s; intros H; try reflexivity; contradiction. Qed.

(** ** Mean pooling and masked positions *)

Lemma is_finite_nth row d :
  Forall (fun x => F32.is_finite x = true) row -> F32.is_finite (nth d row F32.zero) = true.
Proof.
  intros H. revert d. induction H as [|x row Hx _ IH]; intros [|d]; try reflexivity.
  - exact Hx.
  - apply IH.
Qed.

Lemma fold_add_unmasked (rows : Torch.tensor2 F32.t) (mask_row : list Z) d : forall acc,
  Forall2 (fun row m => m = 0 -> Forall (fun x => F32.is_finite x = true) row) rows mask_row ->
  exp_ok acc -> acc <> S754_zero true ->
  fold_left F32.add
    (zip_with (fun row m => F32.mul (nth d row F32.zero) (F32.of_int m)) rows mask_row) acc
  = fold_left F32.add
      (zip_with (fun row m => F32.mul (nth d row F32.zero) (F32.of_int m))
         (unmasked rows mask_row) (unmasked mask_row mask_row)) acc.
Proof.
  intros acc H. revert acc. induction H as [|row m rows mask_row Hrow _ IH]; intros acc He Hz.
  - reflexivity.
  - cbn [zip_with fold_left unmasked]. destruct (Z.eqb_spec m 0) as [->|Hm].
    + destruct (F32_mul_zero_finite (nth d row F32.zero) (is_finite_nth row d (Hrow eq_refl)))
        as [s Hs].
      change (F32.of_int 0) with F32.zero. rewrite Hs, F32_add_signed_zero_r by exact Hz.
      apply IH; assumption.
    + cbn [zip_with fold_left]. apply IH.
      * apply F32_add_exp; [exact He | apply F32_mul_exp].
      * apply F32_add_not_neg_zero; [exact He | apply F32_mul_exp | exact Hz].
Qed.

Lemma fold_add_int_unmasked (mask_row : list Z) : forall acc,
  fold_left Z.add mask_row acc = fold_left Z.add (unmasked mask_row mask_row) acc.
Proof.
  induction mask_row as [|m mask_row IH]; intros acc; [reflexivity|].
  cbn [fold_left unmasked]. destruct (Z.eqb_spec m 0) as [->|Hm].
  - rewrite Z.add_0_r. apply IH.
  - cbn [fold_left]. apply IH.
Qed.

(** The masked mean of an item is the masked mean of its unmasked positions,
    when the hidden states at the masked positions are finite. *)
Lemma masked_mean_unmasked rows mask_row d :
  Forall2 (fun row m => m = 0 -> Forall (fun x => F32.is_finite x = true) row) rows mask_row ->
  Spec.masked_mean rows mask_row d
  = Spec.masked_mean (unmasked rows mask_row) (unmasked mask_row mask_row) d.
Proof.
  intros H. unfold Spec.masked_mean, Spec.masked_sum, Spec.mask_count.
  rewrite (fold_add_unmasked rows mask_row d F32.zero H I) by discriminate.
  rewrite (fold_add_int_unmasked mask_row 0). reflexivity.
Qed.

(** X10. With the pooling method 'mean', the positions whose mask flag is 0
    do not show in the result when the hidden states there are finite: the
    entry for an item is the masked mean of the item with these positions
    removed.  So the pooled vector of an item does not depend on how far it
    was padded, nor on the hidden states of the padding. *)
Theorem mean_pooling_ignores_masked_positions {B} (self : FlagModel B)
    (h : Torch.tensor3 F32.t) (mask : Torch.tensor2 Z) (nB T D : nat) :
  pooling_method self = Py.lit "mean" ->
  Torch.shape3 nB T D h -> Torch.shape2 nB T mask -> (0 < T)%nat ->
  exists out,
    pooling self h mask = OK (PyTensor out) /\
    forall b rows mask_row d,
      h !! b = Some rows -> mask !! b = Some mask_row -> (d < D)%nat ->
      Forall2 (fun row m => m = 0 -> Forall (fun x => F32.is_finite x = true) row)
              rows mask_row ->
      Torch.entry out b d
      = Some (Spec.masked_mean (unmasked rows mask_row) (unmasked mask_row mask_row) d).
Proof.
  intros Hmean Hh Hm HT. exists (Spec.mean_pool D h mask).
  split; [exact (pooling_mean self h mask nB T D Hmean Hh Hm HT)|].
  intros b rows mask_row d Hb Hmb Hd Hfin.
  rewrite (mean_pool_entry D h mask b d rows mask_row Hb Hmb Hd).
  rewrite (masked_mean_unmasked rows mask_row d Hfin). reflexivity.
Qed.

(** *** A mask of 0/1 flags *)

Lemma unmasked_flags (mask_row : list Z) :
  Forall (fun m => m = 0 \/ m = 1) mask_row ->
  unmasked mask_row mask_row = replicate (length (unmasked mask_row mask_row)) 1.
Proof.
  induction 1 as [|m mask_row [-> | ->] _ IH]; [reflexivity | exact IH |].
  cbn. f_equal. exact IH.
Qed.

Lemma unmasked_length {A} (rows : list A) (mask_row : list Z) :
  length rows = length mask_row ->
  length (unmasked rows mask_row) = length (unmasked mask_row mask_row).
Proof.
  revert mask_row. induction rows as [|r rows IH]; intros [|m mask_row] H; try discriminate;
    [reflexivity|].
  cbn [unmasked]. injection H as H. destruct (m =? 0); cbn [length]; rewrite (IH _ H); reflexivity.
Qed.

Lemma unmasked_Forall {A} (P : A -> Prop) (rows : list A) (mask_row : list Z) :
  Forall P rows -> Forall P (unmasked rows mask_row).
Proof.
  intros H. revert mask_row. induction H as [|r rows Hr _ IH]; intros [|m mask_row];
    try constructor.
  cbn [unmasked]. destruct (m =? 0); [apply IH | constructor; [exact Hr | apply IH]].
Qed.

Lemma unmasked_length_le {A} (rows : list A) (mask_row : list Z) :
  (length (unmasked rows mask_row) <= length rows)%nat.
Proof.
  revert mask_row. induction rows as [|r rows IH]; intros [|m mask_row]; cbn [unmasked length];
    try lia.
  destruct (m =? 0); cbn [length]; specialize (IH mask_row); lia.
Qed.

Lemma zip_with_mul_ones (rows : Torch.tensor2 F32.t) d :
  Forall (Forall (fun x => F32.finite x = true)) rows ->
  zip_with (fun row m => F32.mul (nth d row F32.zero) (F32.of_int m)) rows
           (replicate (length rows) 1)
  = map (fun row => nth d row F32.zero) rows.
Proof.
  induction 1 as [|row rows Hrow _ IH]; [reflexivity|].
  cbn [length replicate zip_with map]. change (F32.of_int 1) with F32.one.
  rewrite (F32_mul_one _ (finite_nth row d Hrow)), IH. reflexivity.
Qed.

Lemma fold_add_int_ones n a : fold_left Z.add (replicate n 1) a = a + Z.of_nat n.
Proof.
  revert a. induction n as [|n IH]; intros a; [cbn; lia|].
  cbn [replicate fold_left]. rewrite IH. lia.
Qed.

Lemma wrap64_small z : 0 <= z < 2 ^ 63 -> Torch.wrap64 z = z.
Proof. intros H. unfold Torch.wrap64. rewrite Z.mod_small; lia. Qed.

Lemma masked_mean_flags rows mask_row d :
  length rows = length mask_row -> Z.of_nat (length mask_row) < 2 ^ 63 ->
  Forall (fun m => m = 0 \/ m = 1) mask_row ->
  Forall (Forall (fun x => F32.finite x = true)) rows ->
  Spec.masked_mean rows mask_row d = mean_of_real_tokens rows mask_row d.
Proof.
  intros Hlen Hsmall Hflags Hfin.
  rewrite masked_mean_unmasked.
  2:{ apply Forall2_same_length_lookup_2; [exact Hlen|]. intros i row m Hrow _ _.
      rewrite Forall_forall in Hfin. specialize (Hfin row (list_elem_of_lookup_2 _ _ _ Hrow)).
      eapply Forall_impl; [exact Hfin|]. intros x Hx. apply finite_is_finite, Hx. }
  unfold Spec.masked_mean, Spec.masked_sum, Spec.mask_count, mean_of_real_tokens.
  pose proof (unmasked_length rows mask_row Hlen) as Hl.
  rewrite (unmasked_flags mask_row Hflags), <- Hl.
  rewrite zip_with_mul_ones by (apply unmasked_Forall, Hfin).
  rewrite fold_add_int_ones, Z.add_0_l, wrap64_small; [reflexivity|].
  pose proof (unmasked_length_le rows mask_row). lia.
Qed.

(** X11. With the pooling method 'mean', a mask of 0/1 flags and finite
    hidden states, the entry for an item and a dimension is the float32 sum,
    in token order from +0.0, of the hidden states of the item's real tokens,
    divided by the number of real tokens. *)
Theorem mean_pooling_is_mean_of_real_tokens {B} (self : FlagModel B)
    (h : Torch.tensor3 F32.t) (mask : Torch.tensor2 Z) (nB T D : nat) :
  pooling_method self = Py.lit "mean" ->
  Torch.shape3 nB T D h -> Torch.shape2 nB T mask -> (0 < T)%nat ->
  Z.of_nat T < 2 ^ 63 ->
  Forall (Forall (fun m => m = 0 \/ m = 1)) mask ->
  Forall (Forall (Forall (fun x => F32.finite x = true))) h ->
  exists out,
    pooling self h mask = OK (PyTensor out) /\
    forall b rows mask_row d,
      h !! b = Some rows -> mask !! b = Some mask_row -> (d < D)%nat ->
      Torch.entry out b d = Some (mean_of_real_tokens rows mask_row d).
Proof.
  intros Hmean Hh Hm HT Hsmall Hflags Hfin. exists (Spec.mean_pool D h mask).
  split; [exact (pooling_mean self h mask nB T D Hmean Hh Hm HT)|].
  intros b rows mask_row d Hb Hmb Hd.
  rewrite (mean_pool_entry D h mask b d rows mask_row Hb Hmb Hd). f_equal.
  pose proof (list_elem_of_lookup_2 _ _ _ Hb) as Hin.
  pose proof (list_elem_of_lookup_2 _ _ _ Hmb) as Hinm.
  destruct Hh as [_ Hh]. destruct Hm as [_ Hm].
  destruct (proj1 (Forall_forall _ _) Hh rows Hin) as [Hrows _].
  pose proof (proj1 (Forall_forall _ _) Hm mask_row Hinm) as Hmask. cbn beta in Hmask.
  apply masked_mean_flags.
  - rewrite Hrows, Hmask. reflexivity.
  - rewrite Hmask. exact Hsmall.
  - exact (proj1 (Forall_forall _ _) Hflags mask_row Hinm).
  - exact (proj1 (Forall_forall _ _) Hfin rows Hin).
Qed.

Lemma mean_pooling_is_mean_of_real_tokens_witness :
  let h := [[[F32.of_int 3; F32.of_int (-5)]; [F32.of_int 7; F32.of_int 9];
             [F32.of_int 2; F32.of_int 2]];
            [[F32.of_int 1; F32.of_int 2]; [F32.of_int 4; F32.of_int 8];
             [F32.of_int 6; F32.of_int 6]]] in
  let mask := [[1; 1; 0]; [1; 1; 1]] in
  exists out,
    pooling (Demo.flag_model 0 "mean" true None) h mask = OK (PyTensor out) /\
    forall b rows mask_row d,
      h !! b = Some rows -> mask !! b = Some mask_row -> (d < 2)%nat ->
      Torch.entry out b d = Some (mean_of_real_tokens rows mask_row d).
Proof.
  intros h mask.
  apply (mean_pooling_is_mean_of_real_tokens (Demo.flag_model 0 "mean" true None) h mask 2 3 2).
  - reflexivity.
  - split; [reflexivity|]. repeat constructor.
  - split; [reflexivity|]. repeat constructor.
  - lia.
  - reflexivity.
  - repeat match goal with |- Forall _ _ => constructor end;
      first [left; reflexivity | right; reflexivity].
  - repeat match goal with |- Forall _ _ => constructor end; reflexivity.
Defined.

Lemma mean_pooling_ignores_masked_positions_witness :
  let h := [[[F32.of_int 3; F32.of_int (-5)]; [F32.of_int 7; F32.of_int 9];
             [F32.of_int 2; F32.of_int 2]]] in
  let mask := [[1; 1; 0]] in
  exists out,
    pooling (Demo.flag_model 0 "mean" true None) h mask = OK (PyTensor out) /\
    forall b rows mask_row d,
      h !! b = Some rows -> mask !! b = Some mask_row -> (d < 2)%nat ->
      Forall2 (fun row m => m = 0 -> Forall (fun x => F32.is_finite x = true) row)
              rows mask_row ->
      Torch.entry out b d
      = Some (Spec.masked_mean (unmasked rows mask_row) (unmasked mask_row mask_row) d).
Proof.
  intros h mask.
  apply (mean_pooling_ignores_masked_positions (Demo.flag_model 0 "mean" true None) h mask 1 3 2).
  - reflexivity.
  - split; [reflexivity|]. repeat constructor.
  - split; [reflexivity|]. repeat constructor.
  - lia.
Defined.

Example mean_of_real_tokens_example :
  mean_of_real_tokens [[F32.of_int 3]; [F32.of_int 7]; [F32.of_int 2]] [1; 1; 0] 0
  = F32.of_int 5.
Proof. vm_compute. reflexivity. Qed.

(** ** More on [encode_corpus] *)

Lemma lstrip_head s c : head (Py.lstrip s) = Some c -> Py.isspace c = false.
Proof.
  induction s as [|x s IH]; [discriminate|]. cbn [Py.lstrip].
  destruct (Py.isspace x) eqn:E; [exact IH|]. cbn. intros [= <-]. exact E.
Qed.

Lemma lstrip_snoc s c :
  Py.isspace c = false -> Py.lstrip (s ++ [c]) = Py.lstrip s ++ [c].
Proof.
  intros Hc. induction s as [|x s IH]; cbn [app Py.lstrip].
  - rewrite Hc. reflexivity.
  - destruct (Py.isspace x); [exact IH | reflexivity].
Qed.

Lemma last_rev {A} (l : list A) : last (rev l) = head l.
Proof. destruct l as [|x l]; [reflexivity|]. cbn [rev]. apply last_snoc. Qed.

Lemma rstrip_last s c : last (Py.rstrip s) = Some c -> Py.isspace c = false.
Proof. unfold Py.rstrip. rewrite last_rev. apply lstrip_head. Qed.

(** [lstrip] keeps a suffix, [rstrip] a prefix. *)
Lemma lstrip_suffix s : exists p, s = p ++ Py.lstrip s.
Proof.
  induction s as [|x s [p IH]]; [exists []; reflexivity|]. cbn [Py.lstrip].
  destruct (Py.isspace x); [|exists []; reflexivity].
  exists (x :: p). cbn [app]. f_equal. exact IH.
Qed.

Lemma rstrip_prefix s : exists q, s = Py.rstrip s ++ q.
Proof.
  unfold Py.rstrip. destruct (lstrip_suffix (rev s)) as [p Hp]. exists (rev p).
  rewrite <- rev_app_distr, <- Hp, rev_involutive. reflexivity.
Qed.

Lemma rstrip_nil_or_head s : Py.rstrip s = [] \/ head (Py.rstrip s) = head s.
Proof.
  destruct (rstrip_prefix s) as [q Hq]. destruct (Py.rstrip s) as [|y l]; [left; reflexivity|].
  right. rewrite Hq. reflexivity.
Qed.

Lemma strip_trimmed s : trimmed (Py.strip s).
Proof.
  unfold Py.strip. split.
  - intros c Hc. destruct (rstrip_nil_or_head (Py.lstrip s)) as [E|E].
    + rewrite E in Hc. discriminate.
    + rewrite E in Hc. exact (lstrip_head s c Hc).
  - apply rstrip_last.
Qed.

(** X12. The string that [encode_corpus] makes of a record never starts or
    ends with a whitespace character. *)
Theorem record_text_is_trimmed (doc text : item) :
  doc_text doc = OK text -> exists s, text = Text s /\ trimmed s.
Proof.
  destruct doc as [s|d]; [discriminate|]. unfold doc_text, getitem.
  destruct (d !! Py.lit "text") as [t|]; [|discriminate]. cbn. intros [= <-].
  eexists. split; [reflexivity | apply strip_trimmed].
Qed.

Lemma record_text_is_trimmed_witness :
  exists s, Text (Py.lit "T B") = Text s /\ trimmed s.
Proof.
  apply (record_text_is_trimmed
           (Doc {[ Py.lit "title" := Py.lit " T"; Py.lit "text" := Py.lit "B  " ]})).
  reflexivity.
Defined.

Lemma doc_text_untitled d t :
  d !! Py.lit "title" = None \/ d !! Py.lit "title" = Some [] ->
  d !! Py.lit "text" = Some t ->
  doc_text (Doc d) = OK (Text (Py.strip t)).
Proof.
  intros Htitle Htext. unfold doc_text, getitem, Py.str in *.
  rewrite Htext. cbn [mbind result_bind].
  destruct Htitle as [E|E]; rewrite E; reflexivity.
Qed.

(** X13. On a non-empty corpus of records whose title is absent or empty,
    [encode_corpus] returns what [encode] returns on the trimmed texts: the
    separating space leaves no trace. *)
Theorem encode_corpus_untitled_records {B} (self : FlagModel B)
    (docs : list (gmap Py.str Py.str)) (batch_size max_length : Z) :
  docs <> [] ->
  Forall (fun d => (d !! Py.lit "title" = None \/ d !! Py.lit "title" = Some []) /\
                   Spec.has_text d) docs ->
  encode_corpus self (map Doc docs) batch_size max_length
  = encode self (map (fun d => Text (Py.strip (default [] (d !! Py.lit "text")))) docs)
      batch_size max_length.
Proof.
  intros Hne H. destruct docs as [|d docs]; [contradiction|].
  unfold encode_corpus. cbn [map Py.first is_dict mbind result_bind].
  change (Doc d :: map Doc docs) with (map Doc (d :: docs)).
  rewrite mapM_map.
  rewrite (mapM_OK_map _ (fun d => Text (Py.strip (default [] (d !! Py.lit "text"))))).
  - reflexivity.
  - eapply Forall_impl; [exact H|]. intros d' [Htitle [t Ht]].
    rewrite (doc_text_untitled d' t Htitle Ht). unfold Py.str in *. rewrite Ht. reflexivity.
Qed.

Lemma encode_corpus_untitled_records_witness :
  let self := Demo.flag_model 0 "cls" true None in
  encode_corpus self
    (map Doc [ {[ Py.lit "title" := Py.lit ""; Py.lit "text" := Py.lit "B " ]};
               {[ Py.lit "text" := Py.lit " C" ]} ]) 256 512
  = encode self
      (map (fun d : gmap Py.str Py.str => Text (Py.strip (default [] (d !! Py.lit "text"))))
           [ {[ Py.lit "title" := Py.lit ""; Py.lit "text" := Py.lit "B " ]};
             {[ Py.lit "text" := Py.lit " C" ]} ]) 256 512.
Proof.
  intros self. apply encode_corpus_untitled_records.
  - discriminate.
  - repeat constructor; first [ right; reflexivity | left; reflexivity
                              | eexists; vm_compute; reflexivity ].
Defined.

Lemma doc_text_same_fields d d' :
  d !! Py.lit "title" = d' !! Py.lit "title" ->
  d !! Py.lit "text" = d' !! Py.lit "text" ->
  doc_text (Doc d) = doc_text (Doc d').
Proof. intros H1 H2. unfold doc_text, getitem, Py.str in *. rewrite H1, H2. reflexivity. Qed.

(** X14. [encode_corpus] reads the 'title' and 'text' fields of a record
    and nothing else: two corpora of records that agree on these two fields,
    record by record, give the same result, errors included. *)
Theorem encode_corpus_reads_title_and_text_only {B} (self : FlagModel B)
    (docs docs' : list (gmap Py.str Py.str)) (batch_size max_length : Z) :
  Forall2 (fun d d' => d !! Py.lit "title" = d' !! Py.lit "title" /\
                       d !! Py.lit "text" = d' !! Py.lit "text") docs docs' ->
  encode_corpus self (map Doc docs) batch_size max_length
  = encode_corpus self (map Doc docs') batch_size max_length.
Proof.
  intros H. unfold encode_corpus.
  assert (E : mapM doc_text (map Doc docs) = mapM doc_text (map Doc docs')).
  { induction H as [|d d' docs docs' [H1 H2] _ IH]; [reflexivity|].
    cbn [map]. rewrite !mapM_cons, (doc_text_same_fields d d' H1 H2), IH. reflexivity. }
  destruct H as [|d d' docs docs' _ _]; [reflexivity|].
  cbn [map Py.first is_dict mbind result_bind] in *. rewrite E. reflexivity.
Qed.

Lemma encode_corpus_reads_title_and_text_only_witness :
  let self := Demo.flag_model 0 "cls" true None in
  encode_corpus self
    (map Doc [ {[ Py.lit "text" := Py.lit "B"; Py.lit "url" := Py.lit "u" ]} ]) 256 512
  = encode_corpus self (map Doc [ {[ Py.lit "text" := Py.lit "B" ]} ]) 256 512.
Proof.
  intros self. apply encode_corpus_reads_title_and_text_only.
  repeat constructor; vm_compute; reflexivity.
Defined.

(** ** The batch size does not show in the result *)

(** X8. When the collaborators and the pooling treat every batch item by
    item (the embedding of a batch is the list of the embeddings [f s] of its
    strings, all of one width), [encode] returns the embeddings of the
    sentences in order, and the result is the same for any two positive batch
    sizes. *)
Theorem encode_independent_of_batch_size {B} (self : FlagModel B)
    (f : Py.str -> list F32.t) (D : nat) (sentences : list Py.str)
    (batch_size batch_size' max_length : Z) :
  sentences <> [] -> 0 < batch_size -> 0 < batch_size' ->
  (forall batch, batch <> [] ->
     encode_batch self (map Text batch) max_length = OK (map f batch)) ->
  (forall s, length (f s) = D) ->
  encode self (map Text sentences) batch_size max_length = OK (map f sentences) /\
  encode self (map Text sentences) batch_size' max_length
  = encode self (map Text sentences) batch_size max_length.
Proof.
  intros Hne Hb Hb' Hf HD.
  rewrite (encode_itemwise self f D sentences batch_size max_length Hne Hb Hf HD).
  rewrite (encode_itemwise self f D sentences batch_size' max_length Hne Hb' Hf HD).
  split; reflexivity.
Qed.

Lemma demo_cls_itemwise gpus instruction max_length (batch : list Py.str) :
  encode_batch (Demo.flag_model gpus "cls" false instruction) (map Text batch) max_length
  = OK (map (fun _ => [F32.of_int 101; F32.of_int 202]) batch).
Proof.
  unfold encode_batch.
  cbn [Tokenizer_call Model_call Demo.backend Demo.flag_model tokenizer model device_
       normalize_embeddings].
  unfold Demo.tokenize. rewrite demo_tokenize_texts. cbn [mbind result_bind attention_mask].
  unfold pooling. cbn [pooling_method Demo.flag_model].
  destruct (decide (Py.lit "cls" = Py.lit "cls")) as [_|E]; [|contradiction].
  unfold Torch.select_dim1_0, Demo.hidden. cbn [input_ids].
  rewrite !map_map, mapM_map.
  rewrite (mapM_OK_map _ (fun _ => [F32.of_int 101; F32.of_int 202])).
  - reflexivity.
  - apply Forall_forall. reflexivity.
Qed.

Lemma encode_independent_of_batch_size_witness :
  let self := Demo.flag_model 0 "cls" false None in
  let sentences := [Py.lit "ab"; Py.lit "c"; Py.lit ""] in
  encode self (map Text sentences) 1 512
  = OK (map (fun _ => [F32.of_int 101; F32.of_int 202]) sentences) /\
  encode self (map Text sentences) 2 512 = encode self (map Text sentences) 1 512.
Proof.
  intros self sentences.
  apply (encode_independent_of_batch_size self _ 2 sentences 1 2 512).
  - discriminate.
  - lia.
  - lia.
  - intros batch _. apply demo_cls_itemwise.
  - reflexivity.
Defined.

(** ** C6: the text [encode_corpus] makes of a record *)

(** [str.isspace] holds of the whitespace characters and of no other. *)
Lemma isspace_spec c : Py.isspace c = true <-> CorpusSpec.is_space c.
Proof.
  unfold CorpusSpec.is_space, CorpusSpec.whitespace, Py.isspace. split.
  - rewrite !orb_true_iff, !andb_true_iff, !N.leb_le, !N.eqb_eq. intros H.
    assert (E : (c = 0x09 \/ c = 0x0A \/ c = 0x0B \/ c = 0x0C \/ c = 0x0D \/ c = 0x1C \/
                 c = 0x1D \/ c = 0x1E \/ c = 0x1F \/ c = 0x20 \/ c = 0x85 \/ c = 0xA0 \/
                 c = 0x1680 \/ c = 0x2000 \/ c = 0x2001 \/ c = 0x2002 \/ c = 0x2003 \/
                 c = 0x2004 \/ c = 0x2005 \/ c = 0x2006 \/ c = 0x2007 \/ c = 0x2008 \/
                 c = 0x2009 \/ c = 0x200A \/ c = 0x2028 \/ c = 0x2029 \/ c = 0x202F \/
                 c = 0x205F \/ c = 0x3000)%N) by lia.
    cbn [In]. repeat (destruct E as [E|E]; [subst c; tauto|]). subst c. tauto.
  - cbn [In]. intros H.
    repeat (destruct H as [<-|H]; [reflexivity|]). destruct H.
Qed.

Lemma isspace_false_spec c : Py.isspace c = false <-> ~ CorpusSpec.is_space c.
Proof.
  rewrite <- isspace_spec. destruct (Py.isspace c); split; intros H; congruence.
Qed.

Lemma Forall_isspace_spec l :
  Forall (fun c => Py.isspace c = true) l <-> Forall CorpusSpec.is_space l.
Proof.
  split; intros H; (eapply Forall_impl; [exact H|]); intros c; apply isspace_spec.
Qed.

Lemma lstrip_whitespace_app l x :
  Forall (fun c => Py.isspace c = true) l -> Py.lstrip (l ++ x) = Py.lstrip x.
Proof.
  induction 1 as [|c l Hc _ IH]; [reflexivity|]. cbn [app Py.lstrip]. rewrite Hc. exact IH.
Qed.

Lemma lstrip_no_whitespace x :
  (forall c, head x = Some c -> Py.isspace c = false) -> Py.lstrip x = x.
Proof.
  destruct x as [|c x]; [reflexivity|]. intros H. cbn [Py.lstrip].
  rewrite (H c eq_refl). reflexivity.
Qed.

Lemma lstrip_whitespace_prefix s :
  exists p, s = p ++ Py.lstrip s /\ Forall (fun c => Py.isspace c = true) p.
Proof.
  induction s as [|x s (p & IH & Hp)]; [exists []; split; [reflexivity | constructor]|].
  cbn [Py.lstrip]. destruct (Py.isspace x) eqn:E.
  - exists (x :: p). split; [cbn [app]; f_equal; exact IH | constructor; assumption].
  - exists []. split; [reflexivity | constructor].
Qed.

Lemma rstrip_whitespace_suffix s :
  exists q, s = Py.rstrip s ++ q /\ Forall (fun c => Py.isspace c = true) q.
Proof.
  unfold Py.rstrip. destruct (lstrip_whitespace_prefix (rev s)) as (p & Hp & Hws).
  exists (rev p). split.
  - rewrite <- rev_app_distr, <- Hp. symmetry. apply rev_involutive.
  - apply Forall_forall. intros c Hc. rewrite Forall_forall in Hws. apply Hws.
    apply list_elem_of_In, in_rev, list_elem_of_In. exact Hc.
Qed.

(** [strip] removes the surrounding whitespace and nothing else, *)
Lemma strip_trim_of joined : CorpusSpec.trim_of joined (Py.strip joined).
Proof.
  destruct (lstrip_whitespace_prefix joined) as (p & Hp & Hpws).
  destruct (rstrip_whitespace_suffix (Py.lstrip joined)) as (q & Hq & Hqws).
  destruct (strip_trimmed joined) as [Hhead Hlast].
  split; [|split].
  - exists p, q. split; [|split].
    + unfold Py.strip. rewrite <- Hq. exact Hp.
    + apply Forall_isspace_spec, Hpws.
    + apply Forall_isspace_spec, Hqws.
  - intros c Hc. apply isspace_false_spec, Hhead, Hc.
  - intros c Hc. apply isspace_false_spec, Hlast, Hc.
Qed.

(** and the trimmed string is the only one that fits the description. *)
Lemma trim_of_strip joined s : CorpusSpec.trim_of joined s -> s = Py.strip joined.
Proof.
  intros ((l & r & -> & Hl%Forall_isspace_spec & Hr%Forall_isspace_spec) & Hhead & Hlast).
  unfold Py.strip. rewrite (lstrip_whitespace_app l _ Hl).
  destruct s as [|c s].
  - cbn [app]. rewrite <- (app_nil_r r), (lstrip_whitespace_app r [] Hr). reflexivity.
  - set (s' := c :: s) in *.
    rewrite lstrip_no_whitespace
      by (intros c' Hc'; apply isspace_false_spec, Hhead; exact Hc').
    unfold Py.rstrip. rewrite rev_app_distr.
    rewrite lstrip_whitespace_app.
    2:{ apply Forall_forall. intros x Hx. rewrite Forall_forall in Hr. apply Hr.
        apply list_elem_of_In, in_rev. apply list_elem_of_In in Hx. exact Hx. }
    rewrite lstrip_no_whitespace; [symmetry; apply rev_involutive|].
    intros c' Hc'. apply isspace_false_spec, Hlast.
    rewrite <- (rev_involutive s'), last_rev. exact Hc'.
Qed.

Lemma record_text_of_record d :
  Spec.has_text d -> CorpusSpec.text_of_record d (Spec.record_text d).
Proof.
  intros [text Ht]. exists text. split; [exact Ht|].
  unfold Spec.record_text, Py.str in *. rewrite Ht. apply strip_trim_of.
Qed.

Lemma text_of_record_unique d s :
  CorpusSpec.text_of_record d s -> s = Spec.record_text d.
Proof.
  intros (text & Ht & Htrim). unfold Spec.record_text, Py.str in *. rewrite Ht.
  apply trim_of_strip, Htrim.
Qed.

Lemma texts_of_records_unique docs texts :
  Forall2 CorpusSpec.text_of_record docs texts -> texts = map Spec.record_text docs.
Proof.
  induction 1 as [|d s docs texts Hd _ IH]; [reflexivity|].
  cbn [map]. rewrite (text_of_record_unique d s Hd), IH. reflexivity.
Qed.

(** C6. On a non-empty corpus of records that all have a 'text' field,
    [encode_corpus] returns what [encode] returns on one string per record,
    in order: the title (empty when absent), a single space and the text,
    with the whitespace at both ends removed and nothing else changed; these
    strings are determined by the records.  On a non-empty corpus of plain
    strings it returns what [encode] returns on the corpus itself. *)
Theorem encode_corpus_joins_title_and_text {B} (self : FlagModel B) (corpus : list item)
    (batch_size max_length : Z) :
  corpus <> [] ->
  (forall docs, corpus = map Doc docs -> Forall Spec.has_text docs ->
     exists texts,
       Forall2 CorpusSpec.text_of_record docs texts /\
       (forall texts', Forall2 CorpusSpec.text_of_record docs texts' -> texts' = texts) /\
       encode_corpus self corpus batch_size max_length
       = encode self (map Text texts) batch_size max_length) /\
  (forall strs, corpus = map Text strs ->
     encode_corpus self corpus batch_size max_length
     = encode self corpus batch_size max_length).
Proof.
  intros Hne. split.
  - intros docs -> Hdocs. exists (map Spec.record_text docs). split; [|split].
    + clear Hne. induction Hdocs as [|d docs Hd _ IH]; constructor;
        [apply record_text_of_record, Hd | exact IH].
    + apply texts_of_records_unique.
    + destruct docs as [|d docs]; [contradiction|].
      unfold encode_corpus. cbn [map Py.first is_dict mbind result_bind].
      change (Doc d :: map Doc docs) with (map Doc (d :: docs)).
      rewrite (mapM_doc_text_records _ Hdocs). reflexivity.
  - intros strs ->. destruct strs as [|s strs]; [contradiction|]. reflexivity.
Qed.

(** On the small backend with mean pooling the rows depend on the strings:
    the joined strings of the two records below, left untrimmed, do not give
    the rows of the trimmed ones. *)
Example demo_mean_tells_strings_apart :
  let self := Demo.flag_model 0 "mean" false None in
  encode self [Text (Py.lit " T B "); Text (Py.lit " B")] 256 512
  <> encode self [Text (Py.lit "T B"); Text (Py.lit "B")] 256 512 /\
  encode self [Text (Py.lit "")] 256 512 <> encode self [Text (Py.lit "B")] 256 512.
Proof. split; vm_compute; discriminate. Qed.

Lemma encode_corpus_joins_title_and_text_witness :
  let self := Demo.flag_model 0 "mean" false None in
  encode_corpus self
    [Doc {[ Py.lit "title" := Py.lit " T"; Py.lit "text" := Py.lit "B " ]};
     Doc {[ Py.lit "text" := Py.lit "B" ]}] 256 512
  = encode self [Text (Py.lit "T B"); Text (Py.lit "B")] 256 512.
Proof.
  intros self.
  destruct (proj1 (encode_corpus_joins_title_and_text self
              [Doc {[ Py.lit "title" := Py.lit " T"; Py.lit "text" := Py.lit "B " ]};
               Doc {[ Py.lit "text" := Py.lit "B" ]}] 256 512 ltac:(discriminate))
            [ {[ Py.lit "title" := Py.lit " T"; Py.lit "text" := Py.lit "B " ]};
              {[ Py.lit "text" := Py.lit "B" ]} ] eq_refl)
    as (texts & _ & Hunique & ->).
  - repeat constructor; eexists; vm_compute; reflexivity.
  - rewrite <- (Hunique [Py.lit "T B"; Py.lit "B"]); [reflexivity|].
    constructor; [|constructor; [|constructor]].
    + exists (Py.lit "B "). split; [vm_compute; reflexivity|]. split; [|split].
      * exists (Py.lit " "), (Py.lit " ").
        split; [vm_compute; reflexivity|].
        split; repeat constructor; vm_compute; tauto.
      * intros c [= <-]. vm_compute. intuition discriminate.
      * intros c [= <-]. vm_compute. intuition discriminate.
    + exists (Py.lit "B"). split; [vm_compute; reflexivity|]. split; [|split].
      * exists (Py.lit " "), [].
        split; [vm_compute; reflexivity|].
        split; repeat constructor; vm_compute; tauto.
      * intros c [= <-]. vm_compute. intuition discriminate.
      * intros c [= <-]. vm_compute. intuition discriminate.
Defined.
